(** * Node codec of the B+tree pages (BTree.go)

    A shallow embedding of the byte-level node codec: the page is a Go
    byte slice, the accessors read and write little-endian fields at
    positions computed in 16-bit unsigned arithmetic, and every run-time
    fault of the Go program (a failed assertion, an index or a slice bound
    out of range) is an explicit [Panic] result. *)

From Stdlib Require Import ZArith List Lia Bool.
From coqutil Require Import Byte Word.LittleEndianList.
Import ListNotations.
Local Open Scope Z_scope.

(** ** Constants of the source *)

Definition BNODE_NODE : Z := 1.
Definition BNODE_LEAF : Z := 2.
Definition HEADER : Z := 4.
Definition BTREE_PAGE_SIZE : Z := 4096.
Definition BTREE_MAX_KEY_SIZE : Z := 1000.
Definition BTREE_MAX_VAL_SIZE : Z := 3000.

(** ** Fixed-width unsigned integers

    [uint16] and [uint64] values are integers of [Z]; the wrap-around of
    Go's unsigned arithmetic is written out. *)

Definition uint16 := Z.
Definition uint64 := Z.

Definition wrap16 (z : Z) : uint16 := z mod 2 ^ 16.
Definition add16 (a b : uint16) : uint16 := wrap16 (a + b).
Definition sub16 (a b : uint16) : uint16 := wrap16 (a - b).
Definition mul16 (a b : uint16) : uint16 := wrap16 (a * b).

Definition is_uint16 (z : Z) : Prop := 0 <= z < 2 ^ 16.
Definition is_uint64 (z : Z) : Prop := 0 <= z < 2 ^ 64.

(** ** Run-time faults *)

Inductive fault : Set :=
| AssertFailed       (* assert(cond) with a false condition *)
| IndexOutOfRange    (* b[i] with i >= len(b) *)
| SliceBounds.       (* b[lo:hi] outside 0 <= lo <= hi <= cap(b) *)

Inductive result (A : Type) : Type :=
| Ok (a : A)
| Panic (f : fault).
Arguments Ok {A} a.
Arguments Panic {A} f.

Definition bind {A B} (r : result A) (k : A -> result B) : result B :=
  match r with
  | Ok a => k a
  | Panic f => Panic f
  end.

Declare Scope go_scope.
Delimit Scope go_scope with go.
Notation "x <- c ;; k" := (bind c (fun x => k))
  (at level 61, c at next level, right associativity) : go_scope.
Notation "c ;;; k" := (bind c (fun _ => k))
  (at level 61, right associativity) : go_scope.
Local Open Scope go_scope.

(** Modelled from the spec: [assert] is called by the codec but its
    definition is not part of the source file; the spec describes it as a
    run-time assertion that faults immediately when the condition fails. *)
Definition assert (cond : bool) : result unit :=
  if cond then Ok tt else Panic AssertFailed.

(** ** Go byte slices

    A slice sees [vis] (its [len] bytes) and can be re-sliced up to its
    capacity: [spare] holds the bytes of the underlying array that lie
    between [len] and [cap]. *)

Module Slice.

Record t : Type := mk { vis : list byte; spare : list byte }.

Definition len (s : t) : Z := Z.of_nat (length (vis s)).
Definition cap (s : t) : Z := Z.of_nat (length (vis s) + length (spare s)).

(** The underlying array, from the slice's first byte. *)
Definition backing (s : t) : list byte := vis s ++ spare s.

Definition of_list (l : list byte) : t := mk l [].

(** [s[lo:hi]]: the bounds are checked against the capacity. *)
Definition sub (s : t) (lo hi : Z) : result t :=
  if (0 <=? lo) && (lo <=? hi) && (hi <=? cap s)
  then Ok (mk (firstn (Z.to_nat (hi - lo)) (skipn (Z.to_nat lo) (backing s)))
              (skipn (Z.to_nat hi) (backing s)))
  else Panic SliceBounds.

(** [s[lo:]] is [s[lo:len(s)]]. *)
Definition from (s : t) (lo : Z) : result t := sub s lo (len s).

(** [s[:hi]] is [s[0:hi]]. *)
Definition upto (s : t) (hi : Z) : result t := sub s 0 hi.

(** The bytes of the array at positions [p, p + n). *)
Definition range (s : t) (p : Z) (n : nat) : list byte :=
  firstn n (skipn (Z.to_nat p) (backing s)).

(** A window [w'] obtained from [s[lo:...]] and written through shares the
    array of [s]: [commit] is [s] as seen after those writes. *)
Definition commit (s : t) (lo : Z) (w' : t) : t :=
  let arr := firstn (Z.to_nat lo) (backing s) ++ backing w' in
  mk (firstn (length (vis s)) arr) (skipn (length (vis s)) arr).

End Slice.

(** ** encoding/binary, LittleEndian *)

Module Binary.

(** [Uint16(b)]: faults unless [len(b) >= 2], reads [b[0] | b[1]<<8]. *)
Definition Uint16 (b : Slice.t) : result uint16 :=
  if Slice.len b <? 2 then Panic IndexOutOfRange
  else Ok (le_combine (firstn 2 (Slice.vis b))).

Definition Uint64 (b : Slice.t) : result uint64 :=
  if Slice.len b <? 8 then Panic IndexOutOfRange
  else Ok (le_combine (firstn 8 (Slice.vis b))).

(** [PutUint16(b, v)]: faults unless [len(b) >= 2], then writes the two
    bytes of [v], least significant first. *)
Definition PutUint16 (b : Slice.t) (v : uint16) : result Slice.t :=
  if Slice.len b <? 2 then Panic IndexOutOfRange
  else Ok (Slice.mk (le_split 2 v ++ skipn 2 (Slice.vis b)) (Slice.spare b)).

Definition PutUint64 (b : Slice.t) (v : uint64) : result Slice.t :=
  if Slice.len b <? 8 then Panic IndexOutOfRange
  else Ok (Slice.mk (le_split 8 v ++ skipn 8 (Slice.vis b)) (Slice.spare b)).

End Binary.

(** ** The node and its accessors *)

Record BNode : Type := mkBNode { data : Slice.t }.

(** [btype]: [return binary.LittleEndian.Uint16(node.data)] *)
Definition btype (node : BNode) : result uint16 :=
  Binary.Uint16 (data node).

(** [nkeys]: [return binary.LittleEndian.Uint16(node.data[2:4])] *)
Definition nkeys (node : BNode) : result uint16 :=
  s <- Slice.sub (data node) 2 4 ;;
  Binary.Uint16 s.

(** [getPtr]: [assert(idx < node.nkeys())], [pos := HEADER + 8*idx],
    [return binary.LittleEndian.Uint64(node.data[pos:])]; [pos] is a uint16. *)
Definition getPtr (node : BNode) (idx : uint16) : result uint64 :=
  n <- nkeys node ;;
  assert (idx <? n) ;;;
  let pos := add16 HEADER (mul16 8 idx) in
  s <- Slice.from (data node) pos ;;
  Binary.Uint64 s.

(** [offsetPos]: [assert(1 <= idx && idx <= node.nkeys())],
    [return HEADER + 8*node.nkeys() + 2*(idx-1)].  The conjunction is
    short-circuit: [nkeys] is not evaluated when [idx] is 0. *)
Definition offsetPos (node : BNode) (idx : uint16) : result uint16 :=
  c <- (if 1 <=? idx then n <- nkeys node ;; Ok (idx <=? n) else Ok false) ;;
  assert c ;;;
  n <- nkeys node ;;
  Ok (add16 (add16 HEADER (mul16 8 n)) (mul16 2 (sub16 idx 1))).

(** [getOffset]: [if idx == 0 { return 0 }],
    [return binary.LittleEndian.Uint16(node.data[offsetPos(node, idx):])] *)
Definition getOffset (node : BNode) (idx : uint16) : result uint16 :=
  if idx =? 0 then Ok 0
  else
    p <- offsetPos node idx ;;
    s <- Slice.from (data node) p ;;
    Binary.Uint16 s.

(** [kvPos]: [assert(idx <= node.nkeys())],
    [return HEADER + 8*node.nkeys() + 2*node.nkeys() + node.getOffset(idx)],
    the operands evaluated from left to right. *)
Definition kvPos (node : BNode) (idx : uint16) : result uint16 :=
  n <- nkeys node ;;
  assert (idx <=? n) ;;;
  n1 <- nkeys node ;;
  n2 <- nkeys node ;;
  off <- getOffset node idx ;;
  Ok (add16 (add16 (add16 HEADER (mul16 8 n1)) (mul16 2 n2)) off).

(** [getKey]: [assert(idx < node.nkeys())], [pos := node.kvPos(idx)],
    [klen := binary.LittleEndian.Uint16(node.data[pos:])],
    [return node.data[pos+4:][:klen]] *)
Definition getKey (node : BNode) (idx : uint16) : result Slice.t :=
  n <- nkeys node ;;
  assert (idx <? n) ;;;
  pos <- kvPos node idx ;;
  s <- Slice.from (data node) pos ;;
  klen <- Binary.Uint16 s ;;
  s1 <- Slice.from (data node) (add16 pos 4) ;;
  Slice.upto s1 klen.

(** [getVal]: as [getKey], then
    [vlen := binary.LittleEndian.Uint16(node.data[pos+2:])],
    [return node.data[pos+4+klen:][:vlen]] *)
Definition getVal (node : BNode) (idx : uint16) : result Slice.t :=
  n <- nkeys node ;;
  assert (idx <? n) ;;;
  pos <- kvPos node idx ;;
  s <- Slice.from (data node) pos ;;
  klen <- Binary.Uint16 s ;;
  s2 <- Slice.from (data node) (add16 pos 2) ;;
  vlen <- Binary.Uint16 s2 ;;
  s1 <- Slice.from (data node) (add16 (add16 pos 4) klen) ;;
  Slice.upto s1 vlen.

(** [nbytes]: [return node.kvPos(node.nkeys())] *)
Definition nbytes (node : BNode) : result uint16 :=
  n <- nkeys node ;;
  kvPos node n.

(** ** Mutators

    The receiver is passed by value but its slice shares the page's array, so
    a write is visible to the caller: the node is threaded through, and the
    buffer as it stands is returned also when the call faults. *)

(** [put(node.data[lo:...], v)]: the window [w] is the slice expression, which
    may fault; [put] writes into it, and the node sees the write. *)
Definition write_through (node : BNode) (lo : Z) (w : result Slice.t)
    (put : Slice.t -> result Slice.t) : BNode * result unit :=
  match w with
  | Panic f => (node, Panic f)
  | Ok w =>
    match put w with
    | Panic f => (node, Panic f)
    | Ok w' => (mkBNode (Slice.commit (data node) lo w'), Ok tt)
    end
  end.

(** [setHeader]: [binary.LittleEndian.PutUint16(node.data[0:2], btype)], then
    [binary.LittleEndian.PutUint16(node.data[2:4], nkeys)] *)
Definition setHeader (node : BNode) (btype nkeys : uint16) : BNode * result unit :=
  let (node1, r) :=
    write_through node 0 (Slice.sub (data node) 0 2)
      (fun w => Binary.PutUint16 w btype) in
  match r with
  | Panic f => (node1, Panic f)
  | Ok _ =>
    write_through node1 2 (Slice.sub (data node1) 2 4)
      (fun w => Binary.PutUint16 w nkeys)
  end.

(** [setPtr]: [assert(idx < node.nkeys())], [pos := HEADER + 8*idx],
    [binary.LittleEndian.PutUint64(node.data[pos:], val)] *)
Definition setPtr (node : BNode) (idx : uint16) (val : uint64) : BNode * result unit :=
  match (n <- nkeys node ;; assert (idx <? n)) with
  | Panic f => (node, Panic f)
  | Ok _ =>
    let pos := add16 HEADER (mul16 8 idx) in
    write_through node pos (Slice.from (data node) pos)
      (fun w => Binary.PutUint64 w val)
  end.

(** ** The tree *)

Section Tree.
(** The callbacks act on a page store owned by the embedding engine; its
    state type is left abstract. *)
Variable store : Type.

Record BTree : Type := mkBTree {
  root : uint64;
  get : uint64 -> store -> BNode;
  new : BNode -> store -> uint64 * store;
  del : uint64 -> store -> store
}.
End Tree.

Arguments mkBTree {store}.
Arguments root {store}.
Arguments get {store}.
Arguments new {store}.
Arguments del {store}.

(** ** The buffer of a node, byte by byte *)

(** Positions of the page format, as plain integers. *)
Definition ptrPos (i : Z) : Z := HEADER + 8 * i.
Definition offPos (n i : Z) : Z := HEADER + 8 * n + 2 * (i - 1).
Definition kvStart (n : Z) : Z := HEADER + 8 * n + 2 * n.

Definition blen (node : BNode) : Z := Slice.len (data node).
Definition bcap (node : BNode) : Z := Slice.cap (data node).

(** The underlying array of the node's buffer. *)
Definition arr (node : BNode) : list byte := Slice.backing (data node).

(** The bytes of the node's buffer at positions [p, p + n). *)
Definition bytes_at (node : BNode) (p : Z) (n : nat) : list byte :=
  Slice.range (data node) p n.

(** The node seen through the same slice header once the array holds [a]. *)
Definition with_arr (node : BNode) (a : list byte) : BNode :=
  let n := length (Slice.vis (data node)) in
  mkBNode (Slice.mk (firstn n a) (skipn n a)).

(** [splice p bs l] is [l] with the bytes [bs] written at position [p]. *)
Definition splice (p : nat) (bs l : list byte) : list byte :=
  firstn p l ++ bs ++ skipn (p + length bs) l.

Definition blength (l : list byte) : Z := Z.of_nat (length l).

(** ** Building a node through the codec

    The content of a node: its type, one child pointer and one key-value
    entry per key. *)

Record entry : Type := mkEntry { key : list byte; val : list byte }.

Record content : Type := mkContent {
  c_type : uint16;
  c_ptrs : list uint64;
  c_entries : list entry
}.

Definition c_nkeys (c : content) : Z := Z.of_nat (length (c_entries c)).

(** A record is [klen | vlen | key | val], the lengths on 2 bytes each, as
    the layout comment of [BNode] draws it. *)
Definition record_bytes (e : entry) : list byte :=
  le_split 2 (blength (key e)) ++ le_split 2 (blength (val e)) ++ key e ++ val e.

Definition record_size (e : entry) : Z := 4 + blength (key e) + blength (val e).

Definition kv_size (es : list entry) : Z :=
  fold_right (fun e acc => record_size e + acc) 0 es.

(** The stored offsets, relative to the start of the records: offset [i],
    for [i] from 1, is where record [i] starts (the end of the region for
    the last one); [start] is offset [i - 1]. *)
Fixpoint offsets_from (start : Z) (es : list entry) : list Z :=
  match es with
  | [] => []
  | e :: es' => (start + record_size e) :: offsets_from (start + record_size e) es'
  end.

(** The offset table followed by the records, as the page format lays them
    out after the pointer array. *)
Definition kv_layout (es : list entry) : list byte :=
  flat_map (le_split 2) (offsets_from 0 es) ++ flat_map record_bytes es.

(** The whole page image of [c]. *)
Definition image (c : content) : list byte :=
  le_split 2 (c_type c) ++ le_split 2 (c_nkeys c)
  ++ flat_map (le_split 8) (c_ptrs c) ++ kv_layout (c_entries c).

Definition encoded_size (c : content) : Z :=
  kvStart (c_nkeys c) + kv_size (c_entries c).

(** The buffer holds the offset table and the records of [c] where the
    page format puts them. *)
Definition laid_out (c : content) (buf : BNode) : Prop :=
  bytes_at buf (HEADER + 8 * c_nkeys c) (length (kv_layout (c_entries c)))
  = kv_layout (c_entries c).

(** Sequencing of two mutations: the second runs unless the first faulted. *)
Definition and_then (m : BNode * result unit) (k : BNode -> BNode * result unit)
  : BNode * result unit :=
  match m with
  | (node, Ok _) => k node
  | (node, Panic f) => (node, Panic f)
  end.

(** [node.setPtr(idx, p)] for each pointer in turn, from index [idx] on. *)
Fixpoint setPtrs (node : BNode) (idx : uint16) (ptrs : list uint64)
  : BNode * result unit :=
  match ptrs with
  | [] => (node, Ok tt)
  | p :: ptrs' =>
    and_then (setPtr node idx p) (fun node1 => setPtrs node1 (idx + 1) ptrs')
  end.

(** The header is written by [setHeader], the child pointers by [setPtr]. *)
Definition build (c : content) (buf : BNode) : BNode * result unit :=
  and_then (setHeader buf (c_type c) (c_nkeys c)) (fun node1 =>
  setPtrs node1 0 (c_ptrs c)).

(** ** Sample nodes *)

Definition bz (z : Z) : byte := byte.of_Z z.

(** A leaf with two entries, ("a", "xy") and ("bc", "z"), in a 40-byte
    buffer. *)
Definition sample_bytes : list byte :=
  map bz [ 2; 0;  2; 0
         ; 17; 0; 0; 0; 0; 0; 0; 0
         ; 34; 0; 0; 0; 0; 0; 0; 0
         ; 7; 0;  14; 0
         ; 1; 0; 2; 0; 97; 120; 121
         ; 2; 0; 1; 0; 98; 99; 122
         ; 0; 0 ].

Definition sample : BNode := mkBNode (Slice.of_list sample_bytes).

(** The content of [sample], and a 40-byte buffer that holds its offset table
    and records, header and pointers still blank. *)
Definition sample_content : content :=
  mkContent BNODE_LEAF [17; 34]
    [ mkEntry (map bz [97]) (map bz [120; 121]);
      mkEntry (map bz [98; 99]) (map bz [122]) ].

Definition sample_blank : BNode :=
  mkBNode (Slice.of_list (repeat Byte.x00 20 ++ skipn 20 sample_bytes)).

(** A page with a single entry of maximal size: a key of 1000 bytes and a
    value of 3000 bytes. *)
Definition sample_one : BNode :=
  mkBNode (Slice.of_list
    (map bz [1; 0; 1; 0] ++ repeat Byte.x00 8 ++ le_split 2 4004
     ++ le_split 2 1000 ++ le_split 2 3000
     ++ repeat Byte.x00 1000 ++ repeat Byte.x00 3000 ++ repeat Byte.x00 78)).

Definition sample_one_content : content :=
  mkContent 1 [0] [ mkEntry (repeat Byte.x00 1000) (repeat Byte.x00 3000) ].

(** A header that announces 6554 keys: such a node is larger than 2^16 bytes
    and fits no page. *)
Definition wide_header : BNode := mkBNode (Slice.of_list (map bz [1; 0; 154; 25])).

(** * Properties *)

(** ** 16-bit arithmetic *)

Lemma wrap16_range z : 0 <= wrap16 z < 2 ^ 16.
Proof. unfold wrap16. apply Z.mod_pos_bound. lia. Qed.

Lemma wrap16_small z : 0 <= z < 2 ^ 16 -> wrap16 z = z.
Proof. unfold wrap16. apply Z.mod_small. Qed.

Lemma wrap16_le z : 0 <= z -> wrap16 z <= z.
Proof. unfold wrap16. intros. apply Z.mod_le; lia. Qed.

Lemma add16_wrap_l a c : add16 (wrap16 a) c = wrap16 (a + c).
Proof. unfold add16, wrap16. apply Zplus_mod_idemp_l. Qed.

Lemma add16_wrap_r a c : add16 a (wrap16 c) = wrap16 (a + c).
Proof. unfold add16, wrap16. apply Zplus_mod_idemp_r. Qed.

Lemma mul16_wrap_r a c : mul16 a (wrap16 c) = wrap16 (a * c).
Proof. unfold mul16, wrap16. apply Zmult_mod_idemp_r. Qed.

(** Whatever fits in a page is addressable in 16 bits. *)
Lemma within_page_fits16 z : z <= BTREE_PAGE_SIZE -> z < 2 ^ 16.
Proof. unfold BTREE_PAGE_SIZE. lia. Qed.

Lemma ptr_pos16 i : add16 HEADER (mul16 8 i) = wrap16 (ptrPos i).
Proof. unfold mul16, ptrPos. apply add16_wrap_r. Qed.

Lemma off_pos16 n i :
  add16 (add16 HEADER (mul16 8 n)) (mul16 2 (sub16 i 1)) = wrap16 (offPos n i).
Proof.
  unfold add16, mul16, sub16, wrap16, offPos, HEADER.
  change (2 ^ 16) with 65536. Z.div_mod_to_equations. lia.
Qed.

Lemma kv_pos16 n off :
  add16 (add16 (add16 HEADER (mul16 8 n)) (mul16 2 n)) off = wrap16 (kvStart n + off).
Proof.
  unfold add16, mul16, wrap16, kvStart, HEADER.
  change (2 ^ 16) with 65536. Z.div_mod_to_equations. lia.
Qed.

(** ** Lists: reading and overwriting a range *)

Section ListRanges.
Context {A : Type}.
Implicit Types l bs : list A.

Lemma firstn_skipn_app_l l l' (p k : nat) :
  (p + k <= length l)%nat ->
  firstn k (skipn p (l ++ l')) = firstn k (skipn p l).
Proof.
  intros H. rewrite skipn_app, firstn_app.
  replace (k - length (skipn p l))%nat with 0%nat
    by (rewrite length_skipn; lia).
  rewrite firstn_O, app_nil_r. reflexivity.
Qed.

Lemma skipn_app_exact l l' (p : nat) :
  p = length l -> skipn p (l ++ l') = l'.
Proof.
  intros ->. rewrite skipn_app, skipn_all, Nat.sub_diag. reflexivity.
Qed.

Lemma firstn_app_exact l l' (p : nat) :
  p = length l -> firstn p (l ++ l') = l.
Proof.
  intros ->. rewrite firstn_app, firstn_all, Nat.sub_diag, firstn_O.
  apply app_nil_r.
Qed.

(** Reading back what lies after a prefix of known length. *)
Lemma range_at pre bs post (p : nat) :
  p = length pre ->
  firstn (length bs) (skipn p (pre ++ bs ++ post)) = bs.
Proof.
  intros ->. rewrite skipn_app_exact by reflexivity.
  apply firstn_app_exact. reflexivity.
Qed.
End ListRanges.

(** ** Slices *)

Module SliceFacts.
Import Slice.

Lemma len_nonneg s : 0 <= len s.
Proof. unfold len. lia. Qed.

Lemma len_le_cap s : len s <= cap s.
Proof. unfold len, cap. lia. Qed.

Lemma length_backing s : Z.of_nat (length (backing s)) = cap s.
Proof. unfold backing, cap. rewrite length_app. reflexivity. Qed.

Lemma sub_Ok s lo hi :
  0 <= lo <= hi -> hi <= cap s ->
  sub s lo hi = Ok (mk (range s lo (Z.to_nat (hi - lo)))
                       (skipn (Z.to_nat hi) (backing s))).
Proof.
  intros [H0 H1] H2. unfold sub.
  replace (0 <=? lo) with true by (symmetry; apply Z.leb_le; lia).
  replace (lo <=? hi) with true by (symmetry; apply Z.leb_le; lia).
  replace (hi <=? cap s) with true by (symmetry; apply Z.leb_le; lia).
  reflexivity.
Qed.

Lemma sub_Panic s lo hi :
  lo < 0 \/ hi < lo \/ cap s < hi -> sub s lo hi = Panic SliceBounds.
Proof.
  intros H. unfold sub.
  destruct (0 <=? lo) eqn:E0; [|reflexivity].
  destruct (lo <=? hi) eqn:E1; [|reflexivity].
  destruct (hi <=? cap s) eqn:E2; [|reflexivity].
  apply Z.leb_le in E0, E1, E2. lia.
Qed.

Lemma from_Ok s lo :
  0 <= lo <= len s ->
  from s lo = Ok (mk (skipn (Z.to_nat lo) (vis s)) (spare s)).
Proof.
  intros H. unfold from. rewrite sub_Ok by (pose proof (len_le_cap s); lia).
  unfold range, backing, len in *. f_equal. f_equal.
  - rewrite skipn_app, firstn_app.
    replace (Z.to_nat lo - length (vis s))%nat with 0%nat by lia.
    rewrite length_skipn.
    replace (Z.to_nat (Z.of_nat (length (vis s)) - lo) - (length (vis s) - Z.to_nat lo))%nat
      with 0%nat by lia.
    rewrite firstn_O, app_nil_r. apply firstn_all2.
    rewrite length_skipn. lia.
  - apply skipn_app_exact. lia.
Qed.

Lemma from_Panic s lo : len s < lo -> from s lo = Panic SliceBounds.
Proof. intros H. unfold from. apply sub_Panic. lia. Qed.

(** A 2-byte little-endian read at position [p] of the buffer. *)
Lemma read16 s p :
  0 <= p -> p + 2 <= len s ->
  (w <- from s p ;; Binary.Uint16 w) = Ok (le_combine (range s p 2)).
Proof.
  intros H0 H1. rewrite from_Ok by lia. cbn [bind].
  unfold Binary.Uint16, len in *. cbn [vis].
  rewrite length_skipn.
  replace (Z.of_nat (length (vis s) - Z.to_nat p) <? 2) with false
    by (symmetry; apply Z.ltb_ge; lia).
  unfold range, backing. rewrite firstn_skipn_app_l by lia. reflexivity.
Qed.

(** An 8-byte little-endian read at position [p] of the buffer. *)
Lemma read64 s p :
  0 <= p -> p + 8 <= len s ->
  (w <- from s p ;; Binary.Uint64 w) = Ok (le_combine (range s p 8)).
Proof.
  intros H0 H1. rewrite from_Ok by lia. cbn [bind].
  unfold Binary.Uint64, len in *. cbn [vis].
  rewrite length_skipn.
  replace (Z.of_nat (length (vis s) - Z.to_nat p) <? 8) with false
    by (symmetry; apply Z.ltb_ge; lia).
  unfold range, backing. rewrite firstn_skipn_app_l by lia. reflexivity.
Qed.

Lemma read16_Panic s p :
  0 <= p -> len s < p + 2 ->
  exists f, (w <- from s p ;; Binary.Uint16 w) = Panic f /\ f <> AssertFailed.
Proof.
  intros H0 H1. destruct (Z_lt_le_dec (len s) p) as [Hl|Hl].
  - rewrite from_Panic by lia. eexists; split; [reflexivity | discriminate].
  - rewrite from_Ok by lia. cbn [bind]. unfold Binary.Uint16, len in *.
    cbn [vis]. rewrite length_skipn.
    replace (Z.of_nat (length (vis s) - Z.to_nat p) <? 2) with true
      by (symmetry; apply Z.ltb_lt; lia).
    eexists; split; [reflexivity | discriminate].
Qed.

Lemma read64_Panic s p :
  0 <= p -> len s < p + 8 ->
  exists f, (w <- from s p ;; Binary.Uint64 w) = Panic f /\ f <> AssertFailed.
Proof.
  intros H0 H1. destruct (Z_lt_le_dec (len s) p) as [Hl|Hl].
  - rewrite from_Panic by lia. eexists; split; [reflexivity | discriminate].
  - rewrite from_Ok by lia. cbn [bind]. unfold Binary.Uint64, len in *.
    cbn [vis]. rewrite length_skipn.
    replace (Z.of_nat (length (vis s) - Z.to_nat p) <? 8) with true
      by (symmetry; apply Z.ltb_lt; lia).
    eexists; split; [reflexivity | discriminate].
Qed.

(** [s[q:][:k]]: the [k] bytes at position [q], which may reach into the
    spare capacity. *)
Lemma from_upto s q k :
  0 <= q <= len s -> 0 <= k -> q + k <= cap s ->
  (s1 <- from s q ;; upto s1 k)
  = Ok (mk (range s q (Z.to_nat k)) (skipn (Z.to_nat (q + k)) (backing s))).
Proof.
  intros Hq Hk Hc. rewrite from_Ok by lia. cbn [bind]. unfold upto.
  assert (Hb : backing (mk (skipn (Z.to_nat q) (vis s)) (spare s))
               = skipn (Z.to_nat q) (backing s)).
  { unfold backing, len in *. cbn [vis spare]. rewrite skipn_app.
    replace (Z.to_nat q - length (vis s))%nat with 0%nat by lia.
    reflexivity. }
  rewrite sub_Ok.
  - unfold range. rewrite Hb. cbn [skipn Z.to_nat].
    rewrite Z.sub_0_r, skipn_skipn. do 3 f_equal. lia.
  - lia.
  - rewrite <- length_backing, Hb, length_skipn.
    pose proof (length_backing s). lia.
Qed.

Lemma from_upto_Panic s q k :
  0 <= q -> 0 <= k -> len s < q \/ cap s < q + k ->
  (s1 <- from s q ;; upto s1 k) = Panic SliceBounds.
Proof.
  intros Hq Hk H. destruct (Z_lt_le_dec (len s) q) as [Hl|Hl].
  - rewrite from_Panic by lia. reflexivity.
  - rewrite from_Ok by lia. cbn [bind]. unfold upto. apply sub_Panic.
    right; right. unfold cap, len in *. cbn [vis spare].
    rewrite length_skipn. lia.
Qed.

Lemma length_range s p n :
  0 <= p -> p + Z.of_nat n <= cap s -> length (range s p n) = n.
Proof.
  intros H0 H1. unfold range. rewrite length_firstn, length_skipn.
  pose proof (length_backing s). lia.
Qed.
End SliceFacts.

(** ** The read accessors, in terms of the bytes of the buffer *)

Import SliceFacts.

Lemma le_combine_uint16 (l : list byte) : length l = 2%nat -> is_uint16 (le_combine l).
Proof.
  intros H. pose proof (le_combine_bound l) as Hb. rewrite H in Hb. exact Hb.
Qed.

Lemma length_bytes_at node p n :
  0 <= p -> p + Z.of_nat n <= bcap node -> length (bytes_at node p n) = n.
Proof. apply length_range. Qed.

Lemma btype_Ok node :
  2 <= blen node -> btype node = Ok (le_combine (bytes_at node 0 2)).
Proof.
  intros H. unfold btype, Binary.Uint16, blen in *.
  replace (Slice.len (data node) <? 2) with false by (symmetry; apply Z.ltb_ge; lia).
  unfold bytes_at, Slice.range, Slice.backing, Slice.len in *. cbn [Z.to_nat skipn].
  rewrite firstn_app.
  replace (2 - length (Slice.vis (data node)))%nat with 0%nat by lia.
  rewrite firstn_O, app_nil_r. reflexivity.
Qed.

Lemma btype_Panic node : blen node < 2 -> btype node = Panic IndexOutOfRange.
Proof.
  intros H. unfold btype, Binary.Uint16, blen in *.
  replace (Slice.len (data node) <? 2) with true by (symmetry; apply Z.ltb_lt; lia).
  reflexivity.
Qed.

Lemma nkeys_Ok node :
  4 <= bcap node -> nkeys node = Ok (le_combine (bytes_at node 2 2)).
Proof.
  intros H. unfold nkeys. rewrite sub_Ok by (unfold bcap in H; lia).
  cbn [bind]. unfold Binary.Uint16, Slice.len. cbn [Slice.vis].
  change (Z.to_nat (4 - 2)) with 2%nat.
  rewrite length_range by (unfold bcap in H; lia).
  cbn [Z.of_nat Z.ltb Z.compare Pos.of_succ_nat Pos.succ Pos.compare Pos.compare_cont].
  unfold Slice.range. rewrite firstn_firstn. reflexivity.
Qed.

Lemma nkeys_Panic node : bcap node < 4 -> nkeys node = Panic SliceBounds.
Proof.
  intros H. unfold nkeys. rewrite sub_Panic by (unfold bcap in H; lia). reflexivity.
Qed.

Lemma nkeys_inv node n :
  nkeys node = Ok n ->
  4 <= bcap node /\ n = le_combine (bytes_at node 2 2) /\ is_uint16 n.
Proof.
  intros H. destruct (Z_lt_le_dec (bcap node) 4) as [Hc|Hc].
  - rewrite nkeys_Panic in H by assumption. discriminate.
  - rewrite nkeys_Ok in H by assumption. injection H as <-.
    repeat split; try assumption; apply le_combine_uint16, length_bytes_at; lia.
Qed.

Lemma offsetPos_Ok node n i :
  nkeys node = Ok n -> 1 <= i <= n ->
  offsetPos node i = Ok (wrap16 (offPos n i)).
Proof.
  intros Hn [H1 H2]. unfold offsetPos.
  replace (1 <=? i) with true by (symmetry; apply Z.leb_le; lia).
  rewrite Hn. cbn [bind].
  replace (i <=? n) with true by (symmetry; apply Z.leb_le; lia).
  cbn [assert bind]. rewrite off_pos16. reflexivity.
Qed.

Lemma offsetPos_Panic node n i :
  nkeys node = Ok n -> i < 1 \/ n < i ->
  offsetPos node i = Panic AssertFailed.
Proof.
  intros Hn H. unfold offsetPos.
  destruct (1 <=? i) eqn:E1.
  - apply Z.leb_le in E1. rewrite Hn. cbn [bind].
    replace (i <=? n) with false by (symmetry; apply Z.leb_gt; lia).
    reflexivity.
  - reflexivity.
Qed.

Lemma getOffset_0 node : getOffset node 0 = Ok 0.
Proof. reflexivity. Qed.

Lemma getOffset_pos node n i :
  nkeys node = Ok n -> 1 <= i <= n ->
  getOffset node i
  = (w <- Slice.from (data node) (wrap16 (offPos n i)) ;; Binary.Uint16 w).
Proof.
  intros Hn Hi. unfold getOffset.
  replace (i =? 0) with false by (symmetry; apply Z.eqb_neq; lia).
  rewrite (offsetPos_Ok node n i Hn Hi). reflexivity.
Qed.

Lemma getOffset_uint16 node i off :
  getOffset node i = Ok off -> is_uint16 off.
Proof.
  unfold getOffset. destruct (i =? 0).
  - intros H; injection H as <-. unfold is_uint16. lia.
  - destruct (offsetPos node i) as [p|]; [|discriminate]. cbn [bind].
    destruct (Slice.from (data node) p) as [w|]; [|discriminate]. cbn [bind].
    unfold Binary.Uint16. destruct (Slice.len w <? 2) eqn:E; [discriminate|].
    intros H.
    assert (Hoff : off = le_combine (firstn 2 (Slice.vis w))) by congruence.
    rewrite Hoff. apply Z.ltb_ge in E. apply le_combine_uint16. rewrite length_firstn. unfold Slice.len in E. lia.
Qed.

Lemma kvPos_Ok node n i off :
  nkeys node = Ok n -> i <= n -> getOffset node i = Ok off ->
  kvPos node i = Ok (wrap16 (kvStart n + off)).
Proof.
  intros Hn Hi Ho. unfold kvPos. rewrite Hn. cbn [bind].
  replace (i <=? n) with true by (symmetry; apply Z.leb_le; lia).
  cbn [assert bind]. rewrite Ho. cbn [bind]. rewrite kv_pos16. reflexivity.
Qed.

Lemma kvPos_Panic node n i :
  nkeys node = Ok n -> n < i -> kvPos node i = Panic AssertFailed.
Proof.
  intros Hn Hi. unfold kvPos. rewrite Hn. cbn [bind].
  replace (i <=? n) with false by (symmetry; apply Z.leb_gt; lia).
  reflexivity.
Qed.

(** ** The sample node *)

Example sample_btype : btype sample = Ok BNODE_LEAF.
Proof. reflexivity. Qed.
Example sample_nkeys : nkeys sample = Ok 2.
Proof. reflexivity. Qed.
Example sample_getPtr1 : getPtr sample 1 = Ok 34.
Proof. reflexivity. Qed.
Example sample_getPtr2 : getPtr sample 2 = Panic AssertFailed.
Proof. reflexivity. Qed.
Example sample_offsets :
  (getOffset sample 0, getOffset sample 1, getOffset sample 2) = (Ok 0, Ok 7, Ok 14).
Proof. reflexivity. Qed.
Example sample_kvPos : (kvPos sample 0, kvPos sample 1, kvPos sample 2, kvPos sample 3)
  = (Ok 24, Ok 31, Ok 38, Panic AssertFailed).
Proof. reflexivity. Qed.
Example sample_key1 : getKey sample 1 = Ok (Slice.mk (map bz [98; 99]) (map bz [122; 0; 0])).
Proof. reflexivity. Qed.
Example sample_val1 : getVal sample 1 = Ok (Slice.mk (map bz [122]) (map bz [0; 0])).
Proof. reflexivity. Qed.
Example sample_nbytes : nbytes sample = Ok 38.
Proof. reflexivity. Qed.
Example sample_setPtr :
  fst (setPtr sample 0 258) =
  mkBNode (Slice.of_list (splice 4 (map bz [2; 1; 0; 0; 0; 0; 0; 0]) sample_bytes)).
Proof. reflexivity. Qed.
Example sample_build : build sample_content sample_blank = (sample, Ok tt).
Proof. reflexivity. Qed.
Example sample_laid_out : laid_out sample_content sample_blank.
Proof. reflexivity. Qed.
Example sample_image : image sample_content = firstn 38 sample_bytes.
Proof. reflexivity. Qed.
Example sample_size : encoded_size sample_content = 38.
Proof. reflexivity. Qed.

(** Positions are uint16 values: beyond 2^16 bytes they wrap around. *)
Example wide_header_nkeys : nkeys wide_header = Ok 6554.
Proof. reflexivity. Qed.
Example wide_header_kvPos : kvPos wide_header 0 = Ok 8.
Proof. reflexivity. Qed.

(** A buffer of capacity 3 takes the type, then [setHeader] faults. *)
Example setHeader_cap3 :
  setHeader (mkBNode (Slice.mk [] (map bz [0; 0; 9]))) 2 1
  = (mkBNode (Slice.mk [] (map bz [2; 0; 9])), Panic SliceBounds).
Proof. reflexivity. Qed.

(** ** Writes through a window of the buffer *)

Section SpliceFacts.
Implicit Types l bs : list byte.

Lemma length_splice p bs l :
  (p + length bs <= length l)%nat -> length (splice p bs l) = length l.
Proof.
  intros H. unfold splice.
  rewrite !length_app, length_firstn, length_skipn. lia.
Qed.

Lemma splice_prefix pre bs rest :
  splice (length pre) bs (pre ++ rest) = pre ++ bs ++ skipn (length bs) rest.
Proof.
  unfold splice. rewrite firstn_app_exact by reflexivity.
  rewrite skipn_app.
  replace (length pre + length bs - length pre)%nat with (length bs) by lia.
  rewrite skipn_all2 by lia. reflexivity.
Qed.

Lemma firstn_splice p bs l q :
  (q <= p)%nat -> (p <= length l)%nat -> firstn q (splice p bs l) = firstn q l.
Proof.
  intros Hq Hp. unfold splice. rewrite firstn_app, length_firstn.
  replace (q - Nat.min p (length l))%nat with 0%nat by lia.
  rewrite firstn_O, app_nil_r, firstn_firstn.
  f_equal. lia.
Qed.

Lemma skipn_splice p bs l q :
  (p + length bs <= q)%nat -> (p + length bs <= length l)%nat ->
  skipn q (splice p bs l) = skipn q l.
Proof.
  intros Hq Hp. unfold splice.
  rewrite skipn_app, length_firstn.
  rewrite (skipn_all2 (firstn p l)) by (rewrite length_firstn; lia).
  rewrite skipn_app.
  rewrite (skipn_all2 bs) by lia.
  cbn [app]. rewrite skipn_skipn. f_equal. lia.
Qed.

Lemma range_splice p bs l :
  (p <= length l)%nat -> firstn (length bs) (skipn p (splice p bs l)) = bs.
Proof.
  intros Hp. unfold splice. apply range_at. rewrite length_firstn. lia.
Qed.
End SpliceFacts.

Lemma arr_with_arr node a : arr (with_arr node a) = a.
Proof. unfold arr, with_arr, Slice.backing. cbn. apply firstn_skipn. Qed.

Lemma blen_with_arr node a :
  length a = length (arr node) -> blen (with_arr node a) = blen node.
Proof.
  unfold arr, with_arr, blen, Slice.len, Slice.backing. cbn [data Slice.vis].
  rewrite length_app, length_firstn. lia.
Qed.

Lemma bcap_arr node : bcap node = Z.of_nat (length (arr node)).
Proof. symmetry. apply length_backing. Qed.

Lemma bcap_with_arr node a :
  length a = length (arr node) -> bcap (with_arr node a) = bcap node.
Proof. intros H. rewrite !bcap_arr, arr_with_arr. lia. Qed.

Lemma blen_le_bcap node : blen node <= bcap node.
Proof. apply len_le_cap. Qed.

Lemma bytes_at_arr node p n : bytes_at node p n = firstn n (skipn (Z.to_nat p) (arr node)).
Proof. reflexivity. Qed.

Lemma with_arr_same node : with_arr node (arr node) = node.
Proof.
  destruct node as [[v s]]. unfold with_arr, arr, Slice.backing. cbn.
  rewrite firstn_app_exact, skipn_app_exact; reflexivity.
Qed.

(** [PutUint16(node.data[lo:lo+2], v)] *)
Lemma write_sub16 node lo v :
  0 <= lo -> lo + 2 <= bcap node ->
  write_through node lo (Slice.sub (data node) lo (lo + 2))
    (fun w => Binary.PutUint16 w v)
  = (with_arr node (splice (Z.to_nat lo) (le_split 2 v) (arr node)), Ok tt).
Proof.
  intros H0 H1. unfold write_through.
  rewrite sub_Ok by (unfold bcap in H1; lia).
  replace (Z.to_nat (lo + 2 - lo)) with 2%nat by lia.
  unfold Binary.PutUint16, Slice.len. cbn [Slice.vis Slice.spare].
  rewrite length_range by (unfold bcap in H1; lia).
  cbn [Z.of_nat Z.ltb Z.compare Pos.of_succ_nat Pos.succ Pos.compare Pos.compare_cont].
  f_equal. unfold with_arr, Slice.commit. f_equal.
  assert (E : firstn (Z.to_nat lo) (Slice.backing (data node))
              ++ Slice.backing
                   (Slice.mk (le_split 2 v ++ skipn 2 (Slice.range (data node) lo 2))
                      (skipn (Z.to_nat (lo + 2)) (Slice.backing (data node))))
              = splice (Z.to_nat lo) (le_split 2 v) (arr node)).
  { unfold Slice.backing at 2. cbn [Slice.vis Slice.spare].
    rewrite skipn_all2 by (rewrite length_range by (unfold bcap in H1; lia); lia).
    unfold splice, arr. rewrite app_nil_r, length_le_split.
    do 3 f_equal. lia. }
  cbv zeta. rewrite E. reflexivity.
Qed.

Lemma write_sub_Panic node lo hi put :
  bcap node < hi ->
  write_through node lo (Slice.sub (data node) lo hi) put = (node, Panic SliceBounds).
Proof.
  intros H. unfold write_through. rewrite sub_Panic by (unfold bcap in H; lia).
  reflexivity.
Qed.

(** [PutUint64(node.data[p:], v)] *)
Lemma write_from64 node p v :
  0 <= p -> p + 8 <= blen node ->
  write_through node p (Slice.from (data node) p)
    (fun w => Binary.PutUint64 w v)
  = (with_arr node (splice (Z.to_nat p) (le_split 8 v) (arr node)), Ok tt).
Proof.
  intros H0 H1. unfold write_through, blen in *.
  rewrite from_Ok by lia.
  unfold Binary.PutUint64, Slice.len in *. cbn [Slice.vis Slice.spare].
  rewrite length_skipn.
  replace (Z.of_nat (length (Slice.vis (data node)) - Z.to_nat p) <? 8) with false
    by (symmetry; apply Z.ltb_ge; lia).
  f_equal. unfold with_arr, Slice.commit. f_equal.
  assert (E : firstn (Z.to_nat p) (Slice.backing (data node))
              ++ Slice.backing
                   (Slice.mk (le_split 8 v ++ skipn 8 (skipn (Z.to_nat p) (Slice.vis (data node))))
                      (Slice.spare (data node)))
              = splice (Z.to_nat p) (le_split 8 v) (arr node)).
  { unfold Slice.backing at 2. cbn [Slice.vis Slice.spare].
    unfold splice, arr, Slice.backing. rewrite length_le_split, <- !app_assoc.
    do 2 f_equal. rewrite skipn_skipn, skipn_app.
    replace (Z.to_nat p + 8 - length (Slice.vis (data node)))%nat with 0%nat by lia.
    cbn [skipn]. do 2 f_equal. lia. }
  cbv zeta. rewrite E. reflexivity.
Qed.

Lemma write_from64_Panic node p v :
  0 <= p -> blen node < p + 8 ->
  exists f, write_through node p (Slice.from (data node) p)
              (fun w => Binary.PutUint64 w v) = (node, Panic f)
            /\ f <> AssertFailed.
Proof.
  intros H0 H1. unfold write_through, blen in *.
  destruct (Z_lt_le_dec (Slice.len (data node)) p) as [Hl|Hl].
  - rewrite from_Panic by lia. eexists; split; [reflexivity | discriminate].
  - rewrite from_Ok by lia. unfold Binary.PutUint64, Slice.len in *.
    cbn [Slice.vis]. rewrite length_skipn.
    replace (Z.of_nat (length (Slice.vis (data node)) - Z.to_nat p) <? 8) with true
      by (symmetry; apply Z.ltb_lt; lia).
    eexists; split; [reflexivity | discriminate].
Qed.

(** ** The setters, in terms of the bytes of the buffer *)

Lemma with_arr_twice node a a' :
  length a = length (arr node) -> with_arr (with_arr node a) a' = with_arr node a'.
Proof.
  intros H. unfold with_arr at 1 3. cbn [data Slice.vis with_arr].
  rewrite length_firstn.
  replace (Nat.min (length (Slice.vis (data node))) (length a))
    with (length (Slice.vis (data node))).
  - reflexivity.
  - unfold arr, Slice.backing in H. rewrite length_app in H. lia.
Qed.

Lemma splice_header t n l :
  (4 <= length l)%nat ->
  splice 2 (le_split 2 n) (splice 0 (le_split 2 t) l)
  = le_split 2 t ++ le_split 2 n ++ skipn 4 l.
Proof.
  intros H. unfold splice at 2. cbn [firstn app].
  rewrite (length_le_split 2 t).
  change 2%nat with (length (le_split 2 t)) at 1.
  rewrite splice_prefix, (length_le_split 2 n), skipn_skipn. reflexivity.
Qed.

Lemma setHeader_Ok node t n :
  4 <= bcap node ->
  setHeader node t n
  = (with_arr node (le_split 2 t ++ le_split 2 n ++ skipn 4 (arr node)), Ok tt).
Proof.
  intros H. unfold setHeader.
  change (Slice.sub (data node) 0 2) with (Slice.sub (data node) 0 (0 + 2)).
  rewrite write_sub16 by lia.
  set (node1 := with_arr node _).
  assert (Hl : length (splice (Z.to_nat 0) (le_split 2 t) (arr node)) = length (arr node)).
  { apply length_splice. rewrite length_le_split. rewrite bcap_arr in H. lia. }
  change (Slice.sub (data node1) 2 4) with (Slice.sub (data node1) 2 (2 + 2)).
  rewrite write_sub16 by (try (unfold node1; rewrite bcap_with_arr by exact Hl); lia).
  unfold node1. rewrite with_arr_twice, arr_with_arr by exact Hl.
  change (Z.to_nat 0) with 0%nat. change (Z.to_nat 2) with 2%nat.
  rewrite splice_header by (rewrite bcap_arr in H; lia).
  reflexivity.
Qed.

Lemma setHeader_partial node t n :
  2 <= bcap node < 4 ->
  setHeader node t n
  = (with_arr node (le_split 2 t ++ skipn 2 (arr node)), Panic SliceBounds).
Proof.
  intros H. unfold setHeader.
  change (Slice.sub (data node) 0 2) with (Slice.sub (data node) 0 (0 + 2)).
  rewrite write_sub16 by lia.
  set (node1 := with_arr node _).
  assert (Hl : length (splice (Z.to_nat 0) (le_split 2 t) (arr node)) = length (arr node)).
  { apply length_splice. rewrite length_le_split. rewrite bcap_arr in H. lia. }
  rewrite write_sub_Panic by (try (unfold node1; rewrite bcap_with_arr by exact Hl); lia).
  reflexivity.
Qed.

Lemma setHeader_Panic node t n :
  bcap node < 2 -> setHeader node t n = (node, Panic SliceBounds).
Proof.
  intros H. unfold setHeader. rewrite write_sub_Panic by lia. reflexivity.
Qed.

Lemma getPtr_Ok node n i :
  nkeys node = Ok n -> 0 <= i < n -> wrap16 (ptrPos i) + 8 <= blen node ->
  getPtr node i = Ok (le_combine (bytes_at node (wrap16 (ptrPos i)) 8)).
Proof.
  intros Hn Hi Hp. unfold getPtr. rewrite Hn. cbn [bind].
  replace (i <? n) with true by (symmetry; apply Z.ltb_lt; lia).
  cbn [assert bind]. rewrite ptr_pos16.
  apply read64; [apply wrap16_range | exact Hp].
Qed.

Lemma getPtr_assert node n i :
  nkeys node = Ok n -> n <= i -> getPtr node i = Panic AssertFailed.
Proof.
  intros Hn Hi. unfold getPtr. rewrite Hn. cbn [bind].
  replace (i <? n) with false by (symmetry; apply Z.ltb_ge; lia).
  reflexivity.
Qed.

Lemma getPtr_short node n i :
  nkeys node = Ok n -> 0 <= i < n -> blen node < wrap16 (ptrPos i) + 8 ->
  exists f, getPtr node i = Panic f /\ f <> AssertFailed.
Proof.
  intros Hn Hi Hp. unfold getPtr. rewrite Hn. cbn [bind].
  replace (i <? n) with true by (symmetry; apply Z.ltb_lt; lia).
  cbn [assert bind]. rewrite ptr_pos16.
  apply read64_Panic; [apply wrap16_range | exact Hp].
Qed.

Lemma setPtr_Ok node n i v :
  nkeys node = Ok n -> 0 <= i < n -> wrap16 (ptrPos i) + 8 <= blen node ->
  setPtr node i v
  = (with_arr node (splice (Z.to_nat (wrap16 (ptrPos i))) (le_split 8 v) (arr node)),
     Ok tt).
Proof.
  intros Hn Hi Hp. unfold setPtr. rewrite Hn. cbn [bind].
  replace (i <? n) with true by (symmetry; apply Z.ltb_lt; lia).
  cbn [assert]. rewrite ptr_pos16.
  apply write_from64; [apply wrap16_range | exact Hp].
Qed.

Lemma setPtr_assert node n i v :
  nkeys node = Ok n -> n <= i -> setPtr node i v = (node, Panic AssertFailed).
Proof.
  intros Hn Hi. unfold setPtr. rewrite Hn. cbn [bind].
  replace (i <? n) with false by (symmetry; apply Z.ltb_ge; lia).
  reflexivity.
Qed.

Lemma setPtr_short node n i v :
  nkeys node = Ok n -> 0 <= i < n -> blen node < wrap16 (ptrPos i) + 8 ->
  exists f, setPtr node i v = (node, Panic f) /\ f <> AssertFailed.
Proof.
  intros Hn Hi Hp. unfold setPtr. rewrite Hn. cbn [bind].
  replace (i <? n) with true by (symmetry; apply Z.ltb_lt; lia).
  cbn [assert]. rewrite ptr_pos16.
  apply write_from64_Panic; [apply wrap16_range | exact Hp].
Qed.

(** Below the pointer array lies the header, above it the offset table:
    the position of a pointer, wrapped or not, stays in between. *)
Lemma ptr_pos_bounds n i :
  0 <= i < n -> wrap16 (ptrPos i) + 8 <= HEADER + 8 * n.
Proof.
  intros Hi. pose proof (wrap16_le (ptrPos i)). unfold ptrPos, HEADER in *. lia.
Qed.

(** ** Offsets, record positions and the encoded size *)

(** C7. [getOffset 0] is 0 for every node, whatever its buffer holds, an
    empty buffer included: no stored byte is read.  For [1 <= i <= nkeys],
    [getOffset i] is the 16-bit little-endian value of the two bytes stored
    at position [HEADER + 8 * nkeys + 2 * (i - 1)].  The code computes that
    position in uint16: it is this very integer whenever it fits in 16 bits,
    as it does for every node within a page.  The call faults when the two
    bytes are not inside the buffer. *)
Theorem getOffset_spec :
  (forall node, getOffset node 0 = Ok 0) /\
  (forall node n i, nkeys node = Ok n -> 1 <= i <= n ->
     let p := wrap16 (offPos n i) in
     (offPos n i < 2 ^ 16 -> p = HEADER + 8 * n + 2 * (i - 1)) /\
     (p + 2 <= blen node ->
        getOffset node i = Ok (le_combine (bytes_at node p 2))) /\
     (blen node < p + 2 -> exists f, getOffset node i = Panic f)).
Proof.
  split; [exact getOffset_0|].
  intros node n i Hn Hi p. pose proof (nkeys_inv node n Hn) as (_ & _ & Hr).
  unfold is_uint16 in Hr. split; [|split].
  - intros Hfit. apply wrap16_small. unfold offPos, HEADER in *. lia.
  - intros Hp. rewrite (getOffset_pos node n i Hn Hi).
    apply read16; [apply wrap16_range | exact Hp].
  - intros Hp. rewrite (getOffset_pos node n i Hn Hi).
    destruct (read16_Panic (data node) p) as (f & Hf & _);
      [apply wrap16_range | exact Hp | exists f; exact Hf].
Qed.

Lemma getOffset_spec_witness :
  nkeys sample = Ok 2 /\ 1 <= 2 <= 2 /\
  getOffset sample 2 = Ok (le_combine (bytes_at sample 22 2)).
Proof.
  split; [reflexivity|]. split; [lia|].
  destruct getOffset_spec as [_ H].
  destruct (H sample 2 2 eq_refl ltac:(lia)) as (_ & Hr & _).
  apply Hr. vm_compute. discriminate.
Defined.

(** C4. For every node and every index [i <= nkeys], [kvPos i] is
    [HEADER + 8 * nkeys + 2 * nkeys + getOffset i], the sum being taken in
    uint16 as the code does; it is the exact integer sum whenever that fits
    in 16 bits, as for every node within a page.  [i = nkeys] is accepted:
    when the offset table gives record [i] a size of [sz] bytes,
    [kvPos (i + 1)] lies [sz] bytes past [kvPos i], so that [kvPos nkeys] is
    the position just past the last record.  [kvPos] faults on its assertion
    for [i > nkeys]. *)
Theorem kvPos_spec node n i :
  nkeys node = Ok n -> 0 <= i ->
  (i <= n -> forall off, getOffset node i = Ok off ->
     kvPos node i = Ok (wrap16 (HEADER + 8 * n + 2 * n + off)) /\
     (HEADER + 8 * n + 2 * n + off < 2 ^ 16 ->
        kvPos node i = Ok (HEADER + 8 * n + 2 * n + off))) /\
  (i < n -> forall off sz,
     getOffset node i = Ok off -> getOffset node (i + 1) = Ok (off + sz) ->
     HEADER + 8 * n + 2 * n + off + sz < 2 ^ 16 -> 0 <= sz ->
     exists pos, kvPos node i = Ok pos /\ kvPos node (i + 1) = Ok (pos + sz)) /\
  (n < i -> kvPos node i = Panic AssertFailed).
Proof.
  intros Hn Hi. split; [|split].
  - intros Hin off Ho.
    pose proof (kvPos_Ok node n i off Hn Hin Ho) as Hk. unfold kvStart in Hk.
    split; [exact Hk|]. intros Hfit. rewrite Hk. f_equal.
    apply wrap16_small.
    pose proof (nkeys_inv node n Hn) as (_ & _ & Hr).
    pose proof (getOffset_uint16 node i off Ho) as Hoff.
    unfold is_uint16, HEADER in *. lia.
  - intros Hin off sz Ho Ho1 Hfit Hsz.
    pose proof (nkeys_inv node n Hn) as (_ & _ & Hr).
    pose proof (getOffset_uint16 node i off Ho) as Hoff.
    unfold is_uint16, HEADER in *.
    exists (kvStart n + off). split.
    + rewrite (kvPos_Ok node n i off Hn) by (assumption || lia).
      f_equal. apply wrap16_small. unfold kvStart, HEADER. lia.
    + rewrite (kvPos_Ok node n (i + 1) (off + sz) Hn) by (assumption || lia).
      f_equal. rewrite wrap16_small; unfold kvStart, HEADER; lia.
  - apply kvPos_Panic. exact Hn.
Qed.

Lemma kvPos_spec_witness :
  nkeys sample = Ok 2 /\ 0 <= 2 /\ 2 <= 2 /\ getOffset sample 2 = Ok 14 /\
  HEADER + 8 * 2 + 2 * 2 + 14 < 2 ^ 16 /\
  kvPos sample 2 = Ok (HEADER + 8 * 2 + 2 * 2 + 14).
Proof.
  split; [reflexivity|]. split; [lia|]. split; [lia|]. split; [reflexivity|].
  split; [reflexivity|].
  destruct (kvPos_spec sample 2 2 eq_refl ltac:(lia)) as (H & _ & _).
  destruct (H ltac:(lia) 14 eq_refl) as [_ Hx].
  apply Hx. reflexivity.
Defined.

(** C3. For every node, [nbytes] is [kvPos] applied to [nkeys], hence
    [HEADER + 10 * nkeys + getOffset nkeys] in the code's uint16 arithmetic
    (the exact integer whenever it fits in 16 bits).  A node without keys
    needs no special case: [getOffset 0] is 0 and [nbytes] is [HEADER]. *)
Theorem nbytes_spec :
  (forall node, nbytes node = (n <- nkeys node ;; kvPos node n)) /\
  (forall node n, nkeys node = Ok n ->
     nbytes node = kvPos node n /\
     (forall off, getOffset node n = Ok off ->
        nbytes node = Ok (wrap16 (HEADER + 10 * n + off)) /\
        (HEADER + 10 * n + off < 2 ^ 16 ->
           nbytes node = Ok (HEADER + 10 * n + off))) /\
     (n = 0 -> nbytes node = Ok HEADER)).
Proof.
  split; [reflexivity|].
  intros node n Hn.
  assert (Hnb : nbytes node = kvPos node n) by (unfold nbytes; rewrite Hn; reflexivity).
  assert (Hoff : forall off, getOffset node n = Ok off ->
                 nbytes node = Ok (wrap16 (HEADER + 10 * n + off))).
  { intros off Ho. rewrite Hnb, (kvPos_Ok node n n off Hn (Z.le_refl n) Ho).
    unfold kvStart. do 2 f_equal. lia. }
  split; [exact Hnb|]. split.
  - intros off Ho. split; [exact (Hoff off Ho)|].
    intros Hfit. rewrite (Hoff off Ho). f_equal. apply wrap16_small.
    pose proof (nkeys_inv node n Hn) as (_ & _ & Hr).
    pose proof (getOffset_uint16 node n off Ho) as Hor.
    unfold is_uint16, HEADER in *. lia.
  - intros ->. rewrite (Hoff 0 (getOffset_0 node)). reflexivity.
Qed.

Lemma nbytes_spec_witness :
  nkeys sample = Ok 2 /\ getOffset sample 2 = Ok 14 /\
  HEADER + 10 * 2 + 14 < 2 ^ 16 /\
  nbytes sample = kvPos sample 2 /\ nbytes sample = Ok (HEADER + 10 * 2 + 14).
Proof.
  split; [reflexivity|]. split; [reflexivity|]. split; [reflexivity|].
  destruct nbytes_spec as [_ H].
  destruct (H sample 2 eq_refl) as (H1 & H2 & _).
  split; [exact H1|].
  destruct (H2 14 eq_refl) as [_ Hx]. apply Hx. reflexivity.
Defined.

(** ** Keys and values *)

Ltac asserted :=
  match goal with
  | |- context [?a <? ?c] =>
      replace (a <? c) with true by (symmetry; apply Z.ltb_lt; lia)
  end; cbn [assert bind].

(** Resolves the first read of a 16-bit field, known as [R]. *)
Ltac field_read R :=
  match type of R with
  | bind ?m _ = Ok _ =>
      destruct m; cbn [bind] in R |- *; [rewrite R; cbn [bind] | discriminate R]
  end.

Lemma getKey_Ok node n i pos :
  nkeys node = Ok n -> 0 <= i < n -> kvPos node i = Ok pos ->
  0 <= pos -> pos + 2 <= blen node ->
  let klen := le_combine (bytes_at node pos 2) in
  let kp := add16 pos 4 in
  kp <= blen node -> kp + klen <= bcap node ->
  getKey node i
  = Ok (Slice.mk (bytes_at node kp (Z.to_nat klen))
                 (skipn (Z.to_nat (kp + klen)) (arr node))).
Proof.
  intros Hn Hi Hk Hpos Hp klen kp Hkp Hkc.
  unfold getKey. rewrite Hn. cbn [bind]. asserted. rewrite Hk. cbn [bind].
  pose proof (read16 (data node) pos Hpos Hp) as R. field_read R.
  apply from_upto.
  - split; [apply wrap16_range | exact Hkp].
  - apply le_combine_bound.
  - exact Hkc.
Qed.

Lemma getVal_Ok node n i pos :
  nkeys node = Ok n -> 0 <= i < n -> kvPos node i = Ok pos ->
  0 <= pos -> pos + 2 <= blen node -> add16 pos 2 + 2 <= blen node ->
  let klen := le_combine (bytes_at node pos 2) in
  let vlen := le_combine (bytes_at node (add16 pos 2) 2) in
  let vp := add16 (add16 pos 4) klen in
  vp <= blen node -> vp + vlen <= bcap node ->
  getVal node i
  = Ok (Slice.mk (bytes_at node vp (Z.to_nat vlen))
                 (skipn (Z.to_nat (vp + vlen)) (arr node))).
Proof.
  intros Hn Hi Hk Hpos Hp Hp2 klen vlen vp Hvp Hvc.
  unfold getVal. rewrite Hn. cbn [bind]. asserted. rewrite Hk. cbn [bind].
  pose proof (read16 (data node) pos Hpos Hp) as R.
  pose proof (read16 (data node) (add16 pos 2) (proj1 (wrap16_range _)) Hp2) as R2.
  pose proof (from_upto (data node) vp vlen
                (conj (proj1 (wrap16_range _)) Hvp)
                (proj1 (le_combine_bound _)) Hvc) as R3.
  destruct (Slice.from (data node) pos); cbn [bind] in R |- *; [|discriminate R].
  rewrite R. cbn [bind]. exact ltac:(
    destruct (Slice.from (data node) (add16 pos 2)); cbn [bind] in R2 |- *;
    [rewrite R2; cbn [bind]; exact R3 | discriminate R2]).
Qed.

Lemma getKey_assert node n i :
  nkeys node = Ok n -> n <= i -> getKey node i = Panic AssertFailed.
Proof.
  intros Hn Hi. unfold getKey. rewrite Hn. cbn [bind].
  replace (i <? n) with false by (symmetry; apply Z.ltb_ge; lia).
  reflexivity.
Qed.

Lemma getVal_assert node n i :
  nkeys node = Ok n -> n <= i -> getVal node i = Panic AssertFailed.
Proof.
  intros Hn Hi. unfold getVal. rewrite Hn. cbn [bind].
  replace (i <? n) with false by (symmetry; apply Z.ltb_ge; lia).
  reflexivity.
Qed.

(** C5. For [i < nkeys], with [pos = kvPos i], [klen] the 16-bit
    little-endian field at [pos] and [vlen] the one at [pos + 2]: [getKey i]
    is exactly the [klen] bytes that start 4 bytes past [pos], and
    [getVal i] exactly the [vlen] bytes that follow the key.  The positions
    are taken in uint16 as the code does and are the plain sums whenever the
    record ends below 2^16.  Both calls fault on their assertion for
    [i >= nkeys]. *)
Theorem getKey_getVal_spec node n i :
  nkeys node = Ok n -> 0 <= i ->
  (n <= i ->
     getKey node i = Panic AssertFailed /\ getVal node i = Panic AssertFailed) /\
  (i < n -> forall pos, kvPos node i = Ok pos -> pos + 2 <= blen node ->
     let klen := le_combine (bytes_at node pos 2) in
     let vlen := le_combine (bytes_at node (add16 pos 2) 2) in
     let kp := add16 pos 4 in
     let vp := add16 (add16 pos 4) klen in
     (pos + 4 + klen < 2 ^ 16 ->
        add16 pos 2 = pos + 2 /\ kp = pos + 4 /\ vp = kp + klen) /\
     (kp <= blen node -> kp + klen <= bcap node ->
        exists s, getKey node i = Ok s /\
                  Slice.vis s = bytes_at node kp (Z.to_nat klen) /\
                  Slice.len s = klen) /\
     (add16 pos 2 + 2 <= blen node -> vp <= blen node -> vp + vlen <= bcap node ->
        exists s, getVal node i = Ok s /\
                  Slice.vis s = bytes_at node vp (Z.to_nat vlen) /\
                  Slice.len s = vlen)).
Proof.
  intros Hn Hi. split.
  - intros Hge. split; [apply (getKey_assert node n) | apply (getVal_assert node n)];
      assumption.
  - intros Hlt pos Hk Hp klen vlen kp vp.
    assert (Hpos : 0 <= pos < 2 ^ 16).
    { unfold kvPos in Hk. rewrite Hn in Hk. cbn [bind] in Hk.
      destruct (assert (i <=? n)); [|discriminate]. cbn [bind] in Hk.
      destruct (getOffset node i); [|discriminate]. cbn [bind] in Hk.
      injection Hk as <-. apply wrap16_range. }
    assert (Hkl : 0 <= klen) by apply le_combine_bound.
    assert (Hvl : 0 <= vlen) by apply le_combine_bound.
    split; [|split].
    + intros Hfit. unfold kp, vp, add16.
      rewrite (wrap16_small (pos + 2)), (wrap16_small (pos + 4)) by lia.
      rewrite (wrap16_small (pos + 4 + klen)) by lia. auto.
    + intros Hkp Hkc. eexists. split; [|split].
      * apply (getKey_Ok node n i pos); try assumption; lia.
      * reflexivity.
      * unfold Slice.len. cbn [Slice.vis]. unfold bytes_at.
        rewrite length_range;
          [apply Z2Nat.id; assumption | apply wrap16_range
          | rewrite Z2Nat.id by assumption; assumption].
    + intros Hp2 Hvp Hvc. eexists. split; [|split].
      * apply (getVal_Ok node n i pos); try assumption; lia.
      * reflexivity.
      * unfold Slice.len. cbn [Slice.vis]. unfold bytes_at.
        rewrite length_range;
          [apply Z2Nat.id; assumption | apply wrap16_range
          | rewrite Z2Nat.id by assumption; assumption].
Qed.

Lemma getKey_getVal_spec_witness :
  nkeys sample = Ok 2 /\ 0 <= 1 /\ 1 < 2 /\ kvPos sample 1 = Ok 31 /\
  31 + 2 <= blen sample /\
  (exists s, getKey sample 1 = Ok s /\ Slice.vis s = map bz [98; 99]) /\
  (exists s, getVal sample 1 = Ok s /\ Slice.vis s = map bz [122]).
Proof.
  split; [reflexivity|]. split; [lia|]. split; [lia|]. split; [reflexivity|].
  split; [vm_compute; discriminate|].
  destruct (getKey_getVal_spec sample 2 1 eq_refl ltac:(lia)) as [_ H].
  destruct (H ltac:(lia) 31 eq_refl ltac:(vm_compute; discriminate))
    as (_ & HK & HV).
  split.
  - destruct HK as (s & Hs & Hv & _); [vm_compute; discriminate ..|].
    exists s. split; [exact Hs | exact Hv].
  - destruct HV as (s & Hs & Hv & _); [vm_compute; discriminate ..|].
    exists s. split; [exact Hs | exact Hv].
Defined.

(** ** Child pointers and the frame of the setters *)

Lemma ptr_pos_exact i : 0 <= i -> ptrPos i < 2 ^ 16 -> wrap16 (ptrPos i) = HEADER + 8 * i.
Proof. intros Hi H. apply wrap16_small. unfold ptrPos, HEADER in *. lia. Qed.

(** A wrapped pointer position never falls inside the header. *)
Lemma ptr_pos_above_header i : HEADER <= wrap16 (ptrPos i).
Proof.
  unfold wrap16, ptrPos, HEADER. change (2 ^ 16) with 65536.
  Z.div_mod_to_equations. lia.
Qed.

(** C6. With [n = nkeys], [getPtr i] and [setPtr i v] fault on their
    assertion exactly when [i >= n].  For [i < n] on a buffer that holds the
    header and the [n] pointers, neither faults: both address the 8 bytes at
    position [HEADER + 8 * i] (computed in uint16 as the code does; the very
    integer whenever it fits in 16 bits), which lie inside the buffer;
    [getPtr] returns their little-endian value and [setPtr] overwrites them
    and nothing else. *)
Theorem ptr_index_check node n i :
  nkeys node = Ok n -> 0 <= i ->
  (getPtr node i = Panic AssertFailed <-> n <= i) /\
  (forall v, snd (setPtr node i v) = Panic AssertFailed <-> n <= i) /\
  (i < n -> HEADER + 8 * n <= blen node ->
     let p := wrap16 (ptrPos i) in
     (ptrPos i < 2 ^ 16 -> p = HEADER + 8 * i) /\
     0 <= p /\ p + 8 <= blen node /\
     getPtr node i = Ok (le_combine (bytes_at node p 8)) /\
     forall v,
       setPtr node i v
       = (with_arr node (splice (Z.to_nat p) (le_split 8 v) (arr node)), Ok tt)).
Proof.
  intros Hn Hi. split; [|split].
  - split.
    + intros H. destruct (Z_lt_le_dec i n) as [Hlt|Hge]; [exfalso|exact Hge].
      destruct (Z_le_gt_dec (wrap16 (ptrPos i) + 8) (blen node)) as [Hp|Hp].
      * rewrite (getPtr_Ok node n i Hn (conj Hi Hlt) Hp) in H. discriminate.
      * destruct (getPtr_short node n i Hn (conj Hi Hlt)) as (f & Hf & Hne); [lia|].
        rewrite Hf in H. congruence.
    + apply getPtr_assert. exact Hn.
  - intros v. split.
    + intros H. destruct (Z_lt_le_dec i n) as [Hlt|Hge]; [exfalso|exact Hge].
      destruct (Z_le_gt_dec (wrap16 (ptrPos i) + 8) (blen node)) as [Hp|Hp].
      * rewrite (setPtr_Ok node n i v Hn (conj Hi Hlt) Hp) in H. discriminate.
      * destruct (setPtr_short node n i v Hn (conj Hi Hlt)) as (f & Hf & Hne); [lia|].
        rewrite Hf in H. cbn [snd] in H. congruence.
    + intros H. rewrite (setPtr_assert node n i v Hn H). reflexivity.
  - intros Hlt Hbuf p.
    pose proof (ptr_pos_bounds n i (conj Hi Hlt)) as Hb. fold p in Hb.
    assert (Hp : p + 8 <= blen node) by lia.
    split; [apply ptr_pos_exact; exact Hi|].
    split; [apply wrap16_range|]. split; [exact Hp|]. split.
    + apply (getPtr_Ok node n i Hn (conj Hi Hlt) Hp).
    + intros v. apply (setPtr_Ok node n i v Hn (conj Hi Hlt) Hp).
Qed.

Lemma ptr_index_check_witness :
  nkeys sample = Ok 2 /\ 0 <= 1 /\ 1 < 2 /\ HEADER + 8 * 2 <= blen sample /\
  getPtr sample 1 = Ok (le_combine (bytes_at sample 12 8)) /\
  getPtr sample 2 = Panic AssertFailed.
Proof.
  split; [reflexivity|]. split; [lia|]. split; [lia|].
  split; [vm_compute; discriminate|]. split.
  - destruct (ptr_index_check sample 2 1 eq_refl ltac:(lia)) as (_ & _ & H).
    destruct (H ltac:(lia) ltac:(vm_compute; discriminate)) as (_ & _ & _ & Hg & _).
    exact Hg.
  - destruct (ptr_index_check sample 2 2 eq_refl ltac:(lia)) as (H & _).
    apply H. lia.
Defined.

Lemma frame_with_splice node p bs :
  0 <= p -> p + blength bs <= bcap node ->
  let node' := with_arr node (splice (Z.to_nat p) bs (arr node)) in
  blen node' = blen node /\ bcap node' = bcap node /\
  firstn (Z.to_nat p) (arr node') = firstn (Z.to_nat p) (arr node) /\
  skipn (Z.to_nat (p + blength bs)) (arr node') = skipn (Z.to_nat (p + blength bs)) (arr node) /\
  bytes_at node' p (length bs) = bs.
Proof.
  intros Hp Hc node'. unfold blength in *. rewrite bcap_arr in Hc.
  assert (Hl : length (splice (Z.to_nat p) bs (arr node)) = length (arr node))
    by (apply length_splice; lia).
  unfold node'. rewrite bytes_at_arr, arr_with_arr.
  split; [apply blen_with_arr; exact Hl|].
  split; [apply bcap_with_arr; exact Hl|].
  split; [apply firstn_splice; lia|].
  split; [apply skipn_splice; lia|].
  apply range_splice. lia.
Qed.

(** C10. The setters write the bytes they name and no other.  [setHeader]
    leaves every byte from position 4 on as it was, and when it returns
    bytes 0-3 hold the type and the key count; [setPtr i v] with
    [i < nkeys] leaves every byte before position [HEADER + 8 * i] and from
    8 bytes past it as it was (the position in uint16 as the code computes
    it): the header, the offset table and the records are untouched.  The
    length and the capacity of the buffer never change.  This holds also for
    a call that faults. *)
Theorem setters_frame :
  (forall node t k node' r, setHeader node t k = (node', r) ->
     blen node' = blen node /\ bcap node' = bcap node /\
     skipn 4 (arr node') = skipn 4 (arr node) /\
     (r = Ok tt <-> 4 <= bcap node) /\
     (r = Ok tt -> firstn 4 (arr node') = le_split 2 t ++ le_split 2 k)) /\
  (forall node n i v node' r,
     nkeys node = Ok n -> 0 <= i < n -> setPtr node i v = (node', r) ->
     let p := wrap16 (ptrPos i) in
     (ptrPos i < 2 ^ 16 -> p = HEADER + 8 * i) /\
     blen node' = blen node /\ bcap node' = bcap node /\
     firstn (Z.to_nat p) (arr node') = firstn (Z.to_nat p) (arr node) /\
     skipn (Z.to_nat (p + 8)) (arr node') = skipn (Z.to_nat (p + 8)) (arr node) /\
     firstn 4 (arr node') = firstn 4 (arr node) /\
     skipn (Z.to_nat (HEADER + 8 * n)) (arr node')
       = skipn (Z.to_nat (HEADER + 8 * n)) (arr node) /\
     (r = Ok tt <-> p + 8 <= blen node) /\
     (r = Ok tt -> bytes_at node' p 8 = le_split 8 v)).
Proof.
  split.
  - intros node t k node' r H.
    destruct (Z_lt_le_dec (bcap node) 2) as [H2|H2];
      [|destruct (Z_lt_le_dec (bcap node) 4) as [H4|H4]].
    + rewrite setHeader_Panic in H by exact H2. apply pair_equal_spec in H; destruct H as [<- <-].
      repeat split; try reflexivity; try discriminate. intros; lia.
    + rewrite setHeader_partial in H by lia. apply pair_equal_spec in H; destruct H as [<- <-].
      pose proof (bcap_arr node) as Hc.
      assert (Hl : length (le_split 2 t ++ skipn 2 (arr node)) = length (arr node))
        by (rewrite length_app, length_le_split, length_skipn; lia).
      rewrite arr_with_arr.
      split; [apply blen_with_arr; exact Hl|].
      split; [apply bcap_with_arr; exact Hl|].
      split; [rewrite (@skipn_all2 _ 4 (arr node)) by lia; apply skipn_all2; rewrite Hl; lia|].
      split; [split; [discriminate | intros; lia] | discriminate].
    + rewrite setHeader_Ok in H by exact H4. apply pair_equal_spec in H; destruct H as [<- <-].
      pose proof (bcap_arr node) as Hc.
      assert (Hl : length (le_split 2 t ++ le_split 2 k ++ skipn 4 (arr node))
                   = length (arr node))
        by (rewrite !length_app, !length_le_split, length_skipn; lia).
      rewrite arr_with_arr.
      split; [apply blen_with_arr; exact Hl|].
      split; [apply bcap_with_arr; exact Hl|].
      split.
      { rewrite app_assoc. apply skipn_app_exact.
        rewrite length_app, !length_le_split. reflexivity. }
      split; [split; [intros; exact H4 | reflexivity]|].
      intros _. rewrite app_assoc. apply firstn_app_exact.
      rewrite length_app, !length_le_split. reflexivity.
  - intros node n i v node' r Hn Hi H p.
    pose proof (ptr_pos_bounds n i Hi) as Hb. fold p in Hb.
    pose proof (ptr_pos_above_header i) as Hh. fold p in Hh.
    split; [apply ptr_pos_exact; lia|].
    destruct (Z_le_gt_dec (p + 8) (blen node)) as [Hp|Hp].
    + unfold p in Hp. rewrite (setPtr_Ok node n i v Hn Hi Hp) in H.
      apply pair_equal_spec in H; destruct H as [<- <-]. fold p in Hp |- *.
      pose proof (blen_le_bcap node) as Hlc.
      assert (H8 : blength (le_split 8 v) = 8)
        by (unfold blength; rewrite length_le_split; reflexivity).
      destruct (frame_with_splice node p (le_split 8 v))
        as (F1 & F2 & F3 & F4 & F5); [unfold HEADER in *; lia | lia |].
      rewrite H8 in F4. rewrite length_le_split in F5.
      pose proof (bcap_arr node) as Hc.
      assert (Hl : length (splice (Z.to_nat p) (le_split 8 v) (arr node))
                   = length (arr node))
        by (apply length_splice; rewrite length_le_split; unfold HEADER in *; lia).
      split; [exact F1|]. split; [exact F2|]. split; [exact F3|].
      split; [exact F4|]. split; [|split; [|split]].
      * rewrite arr_with_arr. apply firstn_splice; unfold HEADER in *; lia.
      * rewrite arr_with_arr. apply skipn_splice;
          rewrite ?length_le_split; unfold HEADER in *; lia.
      * split; [intros; exact Hp | reflexivity].
      * intros _. exact F5.
    + destruct (setPtr_short node n i v Hn Hi) as (f & Hf & Hne);
        [fold p; lia|].
      rewrite Hf in H. apply pair_equal_spec in H; destruct H as [<- <-].
      repeat split; try reflexivity; try discriminate. intros; lia.
Qed.

Lemma setters_frame_witness :
  nkeys sample = Ok 2 /\ 0 <= 1 < 2 /\
  skipn 20 (arr (fst (setPtr sample 1 258))) = skipn 20 (arr sample) /\
  firstn 12 (arr (fst (setPtr sample 1 258))) = firstn 12 (arr sample) /\
  skipn 4 (arr (fst (setHeader sample 1 3))) = skipn 4 (arr sample).
Proof.
  split; [reflexivity|]. split; [lia|].
  destruct setters_frame as [HH HP].
  destruct (HP sample 2 1 258 _ _ eq_refl ltac:(lia) eq_refl)
    as (_ & _ & _ & Hf & Hs & _).
  split; [exact Hs|]. split; [exact Hf|].
  destruct (HH sample 1 3 _ _ eq_refl) as (_ & _ & Hk & _). exact Hk.
Defined.

(** ** The page layout *)

Lemma kvPos_range node i pos : kvPos node i = Ok pos -> is_uint16 pos.
Proof.
  unfold kvPos. destruct (nkeys node) as [n|]; [|discriminate]. cbn [bind].
  destruct (assert (i <=? n)); [|discriminate]. cbn [bind].
  destruct (getOffset node i) as [off|]; [|discriminate]. cbn [bind].
  intros H. assert (E : pos = add16 (add16 (add16 HEADER (mul16 8 n)) (mul16 2 n)) off)
    by congruence.
  rewrite E. apply wrap16_range.
Qed.

(** C2. The layout of a page is little-endian throughout.  For a node with
    [n] keys in a buffer that holds its header, pointers and offsets and is
    shorter than 2^16 bytes (a page has 4096): the type is read from bytes
    0-1 and the key count from bytes 2-3, child pointer [i] from the 8
    bytes at [4 + 8 * i], the offset of record [i >= 1] from the 2 bytes
    at [4 + 8 * n + 2 * (i - 1)]; the records start at [4 + 10 * n], and a
    record at [pos] is [klen] on 2 bytes, [vlen] on 2 bytes, then the key and
    the value.  The setters write the same fields at the same places. *)
Theorem page_layout node n :
  nkeys node = Ok n -> kvStart n <= blen node -> blen node < 2 ^ 16 ->
  btype node = Ok (le_combine (bytes_at node 0 2)) /\
  n = le_combine (bytes_at node 2 2) /\
  (forall i, 0 <= i < n ->
     getPtr node i = Ok (le_combine (bytes_at node (4 + 8 * i) 8))) /\
  (forall i, 1 <= i <= n ->
     getOffset node i = Ok (le_combine (bytes_at node (4 + 8 * n + 2 * (i - 1)) 2))) /\
  kvPos node 0 = Ok (4 + 10 * n) /\
  (forall i pos, 0 <= i < n -> kvPos node i = Ok pos ->
     let klen := le_combine (bytes_at node pos 2) in
     let vlen := le_combine (bytes_at node (pos + 2) 2) in
     pos + 4 + klen + vlen <= blen node ->
     (exists s, getKey node i = Ok s /\
                Slice.vis s = bytes_at node (pos + 4) (Z.to_nat klen)) /\
     (exists s, getVal node i = Ok s /\
                Slice.vis s = bytes_at node (pos + 4 + klen) (Z.to_nat vlen))) /\
  (forall t k, firstn 4 (arr (fst (setHeader node t k))) = le_split 2 t ++ le_split 2 k) /\
  (forall i v, 0 <= i < n ->
     bytes_at (fst (setPtr node i v)) (4 + 8 * i) 8 = le_split 8 v).
Proof.
  intros Hn Hbuf Hlen.
  pose proof (nkeys_inv node n Hn) as (Hcap & Hnv & Hnr).
  pose proof (blen_le_bcap node) as Hlc.
  unfold is_uint16 in Hnr. unfold kvStart, HEADER in Hbuf.
  assert (Hpp : forall i, 0 <= i < n -> wrap16 (ptrPos i) = 4 + 8 * i).
  { intros i Hi. apply wrap16_small. unfold ptrPos, HEADER. lia. }
  split; [apply btype_Ok; lia|]. split; [exact Hnv|].
  split; [|split; [|split; [|split; [|split]]]].
  - intros i Hi. rewrite <- (Hpp i Hi).
    apply (getPtr_Ok node n i Hn Hi). rewrite (Hpp i Hi). lia.
  - intros i Hi. rewrite (getOffset_pos node n i Hn Hi).
    rewrite wrap16_small by (unfold offPos, HEADER; lia).
    apply read16; unfold offPos, HEADER; fold (blen node); lia.
  - rewrite (kvPos_Ok node n 0 0 Hn (proj1 Hnr) (getOffset_0 node)).
    f_equal. rewrite wrap16_small; unfold kvStart, HEADER; lia.
  - intros i pos Hi Hk klen vlen Hrec.
    pose proof (kvPos_range node i pos Hk) as Hpr. unfold is_uint16 in Hpr.
    assert (Hkl : 0 <= klen) by apply le_combine_bound.
    assert (Hvl : 0 <= vlen) by apply le_combine_bound.
    assert (E2 : add16 pos 2 = pos + 2) by (apply wrap16_small; lia).
    assert (E4 : add16 pos 4 = pos + 4) by (apply wrap16_small; lia).
    assert (Ev : add16 (add16 pos 4) klen = pos + 4 + klen)
      by (rewrite E4; apply wrap16_small; lia).
    split.
    + assert (G : getKey node i
                  = Ok (Slice.mk (bytes_at node (add16 pos 4) (Z.to_nat klen))
                          (skipn (Z.to_nat (add16 pos 4 + klen)) (arr node))))
        by (apply (getKey_Ok node n i pos Hn Hi Hk); fold klen; rewrite ?E4; lia).
      rewrite E4 in G. eexists. split; [exact G | reflexivity].
    + assert (G : getVal node i
                  = Ok (Slice.mk
                          (bytes_at node (add16 (add16 pos 4) klen)
                             (Z.to_nat (le_combine (bytes_at node (add16 pos 2) 2))))
                          (skipn (Z.to_nat (add16 (add16 pos 4) klen
                                            + le_combine (bytes_at node (add16 pos 2) 2)))
                             (arr node))))
        by (apply (getVal_Ok node n i pos Hn Hi Hk); fold klen;
            rewrite ?Ev, ?E2; fold vlen; lia).
      rewrite Ev, E2 in G. eexists. split; [exact G | reflexivity].
  - intros t k. rewrite setHeader_Ok by exact Hcap. cbn [fst].
    rewrite arr_with_arr, app_assoc. apply firstn_app_exact.
    rewrite length_app, !length_le_split. reflexivity.
  - intros i v Hi.
    rewrite (setPtr_Ok node n i v Hn Hi) by (rewrite (Hpp i Hi); lia).
    cbn [fst]. rewrite (Hpp i Hi), bytes_at_arr, arr_with_arr.
    pose proof (range_splice (Z.to_nat (4 + 8 * i)) (le_split 8 v) (arr node)) as R.
    rewrite length_le_split in R. apply R. rewrite bcap_arr in Hlc. lia.
Qed.

Lemma page_layout_witness :
  nkeys sample = Ok 2 /\ kvStart 2 <= blen sample /\ blen sample < 2 ^ 16 /\
  getPtr sample 1 = Ok (le_combine (bytes_at sample (4 + 8 * 1) 8)) /\
  getOffset sample 2 = Ok (le_combine (bytes_at sample (4 + 8 * 2 + 2 * (2 - 1)) 2)) /\
  kvPos sample 0 = Ok (4 + 10 * 2).
Proof.
  split; [reflexivity|]. split; [vm_compute; discriminate|].
  split; [reflexivity|].
  destruct (page_layout sample 2 eq_refl ltac:(vm_compute; discriminate) eq_refl)
    as (_ & _ & HP & HO & HK & _).
  split; [apply HP; lia|]. split; [apply HO; lia | exact HK].
Defined.

(** ** Building a node and reading it back *)

Lemma le16_roundtrip z : is_uint16 z -> le_combine (le_split 2 z) = z.
Proof. intros H. rewrite le_combine_split. apply Z.mod_small. exact H. Qed.

Lemma le64_roundtrip z : is_uint64 z -> le_combine (le_split 8 z) = z.
Proof. intros H. rewrite le_combine_split. apply Z.mod_small. exact H. Qed.

Section FlatMap.
Context {A B : Type} (f : A -> list B).

Lemma flat_map_split (l : list A) (i : nat) (x : A) :
  nth_error l i = Some x ->
  flat_map f l = flat_map f (firstn i l) ++ f x ++ flat_map f (skipn (S i) l).
Proof.
  revert i. induction l as [|a l IH]; intros [|i] H; cbn in H; try discriminate.
  - injection H as ->. reflexivity.
  - cbn [firstn skipn flat_map]. rewrite (IH i H), <- app_assoc. reflexivity.
Qed.

Lemma length_flat_map_const (k : nat) (l : list A) :
  (forall x, length (f x) = k) -> length (flat_map f l) = (k * length l)%nat.
Proof.
  intros Hk. induction l as [|a l IH]; cbn [flat_map length]; [lia|].
  rewrite length_app, Hk, IH. lia.
Qed.
End FlatMap.

Lemma kv_size_nonneg es : 0 <= kv_size es.
Proof.
  induction es as [|e es IH]; cbn [kv_size fold_right]; [lia|].
  fold (kv_size es). unfold record_size, blength. lia.
Qed.

Lemma kv_size_app es1 es2 : kv_size (es1 ++ es2) = kv_size es1 + kv_size es2.
Proof.
  induction es1 as [|e es1 IH]; cbn [kv_size fold_right app]; [reflexivity|].
  fold (kv_size (es1 ++ es2)) (kv_size es1). lia.
Qed.

Lemma kv_size_cons e es : kv_size (e :: es) = record_size e + kv_size es.
Proof. reflexivity. Qed.

Lemma length_record_bytes e : Z.of_nat (length (record_bytes e)) = record_size e.
Proof.
  unfold record_bytes, record_size, blength.
  rewrite !length_app, !length_le_split. lia.
Qed.

Lemma length_records es : Z.of_nat (length (flat_map record_bytes es)) = kv_size es.
Proof.
  induction es as [|e es IH]; [reflexivity|].
  cbn [flat_map]. rewrite length_app, kv_size_cons, Nat2Z.inj_add, IH, length_record_bytes.
  reflexivity.
Qed.

Lemma length_offsets_from s es : length (offsets_from s es) = length es.
Proof.
  revert s. induction es as [|e es IH]; intros s; cbn [offsets_from length]; auto.
Qed.

(** The stored offset of record [i + 1] is the size of the first [i + 1]
    records. *)
Lemma nth_offsets_from s es j o :
  nth_error (offsets_from s es) j = Some o -> o = s + kv_size (firstn (S j) es).
Proof.
  revert s j. induction es as [|e es IH]; intros s [|j] H; cbn in H; try discriminate.
  - injection H as <-. cbn [firstn]. rewrite kv_size_cons. cbn. lia.
  - apply IH in H. rewrite H. change (firstn (S (S j)) (e :: es)) with (e :: firstn (S j) es).
    rewrite kv_size_cons. lia.
Qed.

Lemma kv_size_firstn_le es i : kv_size (firstn i es) <= kv_size es.
Proof.
  rewrite <- (firstn_skipn i es) at 2. rewrite kv_size_app.
  pose proof (kv_size_nonneg (skipn i es)). lia.
Qed.

Lemma kv_size_firstn_S es i e :
  nth_error es i = Some e ->
  kv_size (firstn (S i) es) = kv_size (firstn i es) + record_size e.
Proof.
  revert i. induction es as [|a es IH]; intros [|i] H; cbn in H; try discriminate.
  - injection H as ->. cbn. lia.
  - change (firstn (S (S i)) (a :: es)) with (a :: firstn (S i) es).
    change (firstn (S i) (a :: es)) with (a :: firstn i es).
    rewrite !kv_size_cons, (IH i H). lia.
Qed.

Lemma length_kv_layout es :
  Z.of_nat (length (kv_layout es)) = 2 * Z.of_nat (length es) + kv_size es.
Proof.
  unfold kv_layout. rewrite length_app, Nat2Z.inj_add, length_records.
  rewrite (length_flat_map_const (le_split 2) 2) by (intros; apply length_le_split).
  rewrite length_offsets_from. lia.
Qed.

Lemma length_image c :
  length (c_ptrs c) = length (c_entries c) ->
  Z.of_nat (length (image c)) = encoded_size c.
Proof.
  intros Hp. unfold image, encoded_size, kvStart, c_nkeys, HEADER.
  rewrite !length_app, !Nat2Z.inj_add, length_kv_layout, !length_le_split.
  rewrite (length_flat_map_const (le_split 8) 8) by (intros; apply length_le_split).
  unfold uint64 in *. lia.
Qed.

Lemma bytes_at_app node pre bs post q :
  arr node = pre ++ bs ++ post -> q = Z.of_nat (length pre) ->
  bytes_at node q (length bs) = bs.
Proof.
  intros Ha ->. rewrite bytes_at_arr, Ha, Nat2Z.id. apply range_at. reflexivity.
Qed.

Lemma bytes_at_in node pre bs post q k :
  arr node = pre ++ bs ++ post -> q = Z.of_nat (length pre) -> k = length bs ->
  bytes_at node q k = bs.
Proof. intros Ha Hq ->. apply (bytes_at_app node pre bs post q Ha Hq). Qed.

(** The four fields of a record that starts right after [pre]. *)
Lemma record_at node pre e post pos :
  arr node = pre ++ record_bytes e ++ post -> pos = Z.of_nat (length pre) ->
  bytes_at node pos 2 = le_split 2 (blength (key e)) /\
  bytes_at node (pos + 2) 2 = le_split 2 (blength (val e)) /\
  bytes_at node (pos + 4) (length (key e)) = key e /\
  bytes_at node (pos + 4 + blength (key e)) (length (val e)) = val e.
Proof.
  intros Ha Hpos. unfold record_bytes in Ha. rewrite <- !app_assoc in Ha.
  set (kl := le_split 2 (blength (key e))) in *.
  set (vl := le_split 2 (blength (val e))) in *.
  assert (Lk : length kl = 2%nat) by apply length_le_split.
  assert (Lv : length vl = 2%nat) by apply length_le_split.
  split; [|split; [|split]].
  - apply (bytes_at_in node pre kl (vl ++ key e ++ val e ++ post)); auto.
  - apply (bytes_at_in node (pre ++ kl) vl (key e ++ val e ++ post)).
    + rewrite Ha, <- !app_assoc. reflexivity.
    + rewrite length_app. lia.
    + auto.
  - apply (bytes_at_in node (pre ++ kl ++ vl) (key e) (val e ++ post)).
    + rewrite Ha, <- !app_assoc. reflexivity.
    + rewrite !length_app. lia.
    + reflexivity.
  - apply (bytes_at_in node (pre ++ kl ++ vl ++ key e) (val e) post).
    + rewrite Ha, <- !app_assoc. reflexivity.
    + rewrite !length_app. unfold blength. lia.
    + reflexivity.
Qed.

Section Decode.
Variables (c : content) (node : BNode) (rest : list byte).
Hypothesis Harr : arr node = image c ++ rest.
Hypothesis Hptrs : length (c_ptrs c) = length (c_entries c).
Hypothesis Hlen : encoded_size c <= blen node.
Hypothesis Hfit : encoded_size c < 2 ^ 16.
Hypothesis Htype : is_uint16 (c_type c).
Hypothesis Hp64 : Forall is_uint64 (c_ptrs c).

Local Abbreviation n := (c_nkeys c).
Local Abbreviation es := (c_entries c).
Local Abbreviation hdr := (le_split 2 (c_type c) ++ le_split 2 (c_nkeys c)).
Local Abbreviation ptr_bytes := (flat_map (le_split 8) (c_ptrs c)).
Local Abbreviation off_bytes := (flat_map (le_split 2) (offsets_from 0 (c_entries c))).
Local Abbreviation rec_bytes := (flat_map record_bytes (c_entries c)).

Lemma decode_sizes :
  0 <= n /\ 0 <= kv_size es /\ HEADER + 8 * n + 2 * n + kv_size es < 2 ^ 16 /\
  HEADER + 8 * n + 2 * n + kv_size es <= blen node.
Proof.
  pose proof (kv_size_nonneg es). unfold encoded_size, kvStart, c_nkeys in *. lia.
Qed.

Lemma decode_arr : arr node = hdr ++ ptr_bytes ++ off_bytes ++ rec_bytes ++ rest.
Proof.
  rewrite Harr. unfold image, kv_layout. rewrite <- !app_assoc. reflexivity.
Qed.

Lemma length_hdr : length hdr = 4%nat.
Proof. rewrite length_app, !length_le_split. reflexivity. Qed.

Lemma length_ptr_bytes : Z.of_nat (length ptr_bytes) = 8 * n.
Proof.
  rewrite (length_flat_map_const (le_split 8) 8) by (intros; apply length_le_split).
  unfold c_nkeys. rewrite <- Hptrs. unfold uint64. lia.
Qed.

Lemma length_off_bytes : Z.of_nat (length off_bytes) = 2 * n.
Proof.
  rewrite (length_flat_map_const (le_split 2) 2) by (intros; apply length_le_split).
  rewrite length_offsets_from. unfold c_nkeys. lia.
Qed.

Lemma decode_btype : btype node = Ok (c_type c).
Proof.
  pose proof decode_sizes as (H0 & H1 & H2 & H3). unfold HEADER in *.
  rewrite btype_Ok by lia. f_equal.
  rewrite (bytes_at_in node [] (le_split 2 (c_type c))
             (le_split 2 n ++ ptr_bytes ++ off_bytes ++ rec_bytes ++ rest)).
  - apply le16_roundtrip, Htype.
  - rewrite decode_arr, <- !app_assoc. reflexivity.
  - reflexivity.
  - rewrite length_le_split. reflexivity.
Qed.

Lemma decode_nkeys : nkeys node = Ok n.
Proof.
  pose proof decode_sizes as (H0 & H1 & H2 & H3). unfold HEADER in *.
  pose proof (blen_le_bcap node).
  rewrite nkeys_Ok by lia. f_equal.
  rewrite (bytes_at_in node (le_split 2 (c_type c)) (le_split 2 n)
             (ptr_bytes ++ off_bytes ++ rec_bytes ++ rest)).
  - apply le16_roundtrip. unfold is_uint16. lia.
  - rewrite decode_arr, <- !app_assoc. reflexivity.
  - rewrite length_le_split. reflexivity.
  - rewrite length_le_split. reflexivity.
Qed.

Lemma decode_getPtr (i : nat) (p : uint64) :
  nth_error (c_ptrs c) i = Some p -> getPtr node (Z.of_nat i) = Ok p.
Proof.
  intros Hi.
  pose proof decode_sizes as (H0 & H1 & H2 & H3). unfold HEADER in *.
  assert (Hlt : (i < length (c_ptrs c))%nat) by (apply nth_error_Some; congruence).
  assert (Hin : 0 <= Z.of_nat i < n) by (unfold c_nkeys; rewrite <- Hptrs; lia).
  assert (Hpos : wrap16 (ptrPos (Z.of_nat i)) = 4 + 8 * Z.of_nat i)
    by (apply wrap16_small; unfold ptrPos, HEADER; lia).
  rewrite (getPtr_Ok node n _ decode_nkeys Hin) by (rewrite Hpos; lia).
  f_equal. rewrite Hpos.
  rewrite (bytes_at_in node (hdr ++ flat_map (le_split 8) (firstn i (c_ptrs c)))
             (le_split 8 p)
             (flat_map (le_split 8) (skipn (S i) (c_ptrs c))
              ++ off_bytes ++ rec_bytes ++ rest)).
  - apply le64_roundtrip. rewrite Forall_forall in Hp64.
    apply Hp64. eapply nth_error_In. exact Hi.
  - rewrite decode_arr, (flat_map_split (le_split 8) (c_ptrs c) i p Hi), <- !app_assoc.
    reflexivity.
  - rewrite length_app, length_hdr.
    rewrite (length_flat_map_const (le_split 8) 8) by (intros; apply length_le_split).
    rewrite length_firstn. lia.
  - rewrite length_le_split. reflexivity.
Qed.

Lemma decode_getOffset (i : nat) :
  (i <= length es)%nat ->
  getOffset node (Z.of_nat i) = Ok (kv_size (firstn i es)).
Proof.
  intros Hi. destruct i as [|j]; [reflexivity|].
  pose proof decode_sizes as (H0 & H1 & H2 & H3). unfold HEADER in *.
  assert (Hin : 1 <= Z.of_nat (S j) <= n) by (unfold c_nkeys; lia).
  destruct (nth_error (offsets_from 0 es) j) as [o|] eqn:Ho.
  2:{ apply nth_error_None in Ho. rewrite length_offsets_from in Ho. lia. }
  pose proof (nth_offsets_from 0 es j o Ho) as Eo. rewrite Z.add_0_l in Eo.
  pose proof (kv_size_firstn_le es (S j)) as Hle.
  pose proof (kv_size_nonneg (firstn (S j) es)) as Hge.
  assert (Hpos : wrap16 (offPos n (Z.of_nat (S j))) = 4 + 8 * n + 2 * Z.of_nat j)
    by (rewrite wrap16_small; unfold offPos, HEADER; lia).
  rewrite (getOffset_pos node n _ decode_nkeys Hin), Hpos.
  rewrite read16 by (fold (blen node); lia). f_equal. fold (bytes_at node (4 + 8 * n + 2 * Z.of_nat j) 2).
  rewrite (bytes_at_in node
             (hdr ++ ptr_bytes ++ flat_map (le_split 2) (firstn j (offsets_from 0 es)))
             (le_split 2 o)
             (flat_map (le_split 2) (skipn (S j) (offsets_from 0 es))
              ++ rec_bytes ++ rest)).
  - rewrite <- Eo. apply le16_roundtrip. unfold is_uint16. lia.
  - rewrite decode_arr, (flat_map_split (le_split 2) _ j o Ho), <- !app_assoc.
    reflexivity.
  - rewrite !length_app, !length_le_split, !Nat2Z.inj_add, length_ptr_bytes.
    rewrite (length_flat_map_const (le_split 2) 2) by (intros; apply length_le_split).
    rewrite length_firstn, length_offsets_from. lia.
  - rewrite length_le_split. reflexivity.
Qed.

Lemma decode_kvPos (i : nat) :
  (i <= length es)%nat ->
  kvPos node (Z.of_nat i) = Ok (kvStart n + kv_size (firstn i es)).
Proof.
  intros Hi.
  pose proof decode_sizes as (H0 & H1 & H2 & H3). unfold HEADER in *.
  pose proof (kv_size_firstn_le es i) as Hle.
  pose proof (kv_size_nonneg (firstn i es)) as Hge.
  rewrite (kvPos_Ok node n (Z.of_nat i) (kv_size (firstn i es)) decode_nkeys).
  - f_equal. apply wrap16_small. unfold kvStart, HEADER. lia.
  - unfold c_nkeys. lia.
  - apply decode_getOffset. exact Hi.
Qed.

Lemma decode_nbytes : nbytes node = Ok (encoded_size c).
Proof.
  unfold nbytes. rewrite decode_nkeys. cbn [bind]. unfold c_nkeys.
  rewrite decode_kvPos by lia. rewrite firstn_all. reflexivity.
Qed.

(** The record of entry [i], located in the buffer. *)
Lemma decode_record (i : nat) (e : entry) :
  nth_error es i = Some e ->
  let pos := kvStart n + kv_size (firstn i es) in
  kvPos node (Z.of_nat i) = Ok pos /\ 0 <= Z.of_nat i < n /\
  0 <= pos /\ pos + record_size e <= encoded_size c /\
  bytes_at node pos 2 = le_split 2 (blength (key e)) /\
  bytes_at node (pos + 2) 2 = le_split 2 (blength (val e)) /\
  bytes_at node (pos + 4) (length (key e)) = key e /\
  bytes_at node (pos + 4 + blength (key e)) (length (val e)) = val e.
Proof.
  intros Hi pos.
  pose proof decode_sizes as (H0 & H1 & H2 & H3). unfold HEADER in *.
  assert (Hlt : (i < length es)%nat) by (apply nth_error_Some; congruence).
  pose proof (kv_size_firstn_le es (S i)) as Hle.
  pose proof (kv_size_nonneg (firstn i es)) as Hge.
  pose proof (kv_size_firstn_S es i e Hi) as HS.
  split; [apply decode_kvPos; lia|].
  split; [unfold c_nkeys; lia|].
  split; [unfold pos, kvStart, HEADER; lia|].
  split; [unfold pos, encoded_size; lia|].
  apply (record_at node
           (hdr ++ ptr_bytes ++ off_bytes ++ flat_map record_bytes (firstn i es))
           e (flat_map record_bytes (skipn (S i) es) ++ rest)).
  - rewrite decode_arr, (flat_map_split record_bytes es i e Hi), <- !app_assoc.
    reflexivity.
  - rewrite !length_app, !length_le_split, !Nat2Z.inj_add, length_ptr_bytes,
      length_off_bytes, length_records.
    unfold pos, kvStart, HEADER. lia.
Qed.

Lemma decode_getKey (i : nat) (e : entry) :
  nth_error es i = Some e ->
  exists s, getKey node (Z.of_nat i) = Ok s /\ Slice.vis s = key e.
Proof.
  intros Hi.
  destruct (decode_record i e Hi) as (Hk & Hin & Hp0 & Hend & Bk & Bv & Bkey & Bval).
  set (pos := kvStart n + kv_size (firstn i es)) in *.
  pose proof (blen_le_bcap node) as Hlc.
  assert (Hkr : 0 <= blength (key e)) by (unfold blength; lia).
  assert (Hvr : 0 <= blength (val e)) by (unfold blength; lia).
  unfold record_size in Hend.
  assert (Hkl : le_combine (bytes_at node pos 2) = blength (key e))
    by (rewrite Bk; apply le16_roundtrip; unfold is_uint16; lia).
  assert (E4 : add16 pos 4 = pos + 4) by (apply wrap16_small; lia).
  eexists. split.
  - apply (getKey_Ok node n _ pos decode_nkeys Hin Hk Hp0); rewrite ?Hkl, ?E4; lia.
  - cbn [Slice.vis]. rewrite Hkl, E4. unfold blength at 1. rewrite Nat2Z.id.
    exact Bkey.
Qed.

Lemma decode_getVal (i : nat) (e : entry) :
  nth_error es i = Some e ->
  exists s, getVal node (Z.of_nat i) = Ok s /\ Slice.vis s = val e.
Proof.
  intros Hi.
  destruct (decode_record i e Hi) as (Hk & Hin & Hp0 & Hend & Bk & Bv & Bkey & Bval).
  set (pos := kvStart n + kv_size (firstn i es)) in *.
  pose proof (blen_le_bcap node) as Hlc.
  assert (Hkr : 0 <= blength (key e)) by (unfold blength; lia).
  assert (Hvr : 0 <= blength (val e)) by (unfold blength; lia).
  unfold record_size in Hend.
  assert (Hkl : le_combine (bytes_at node pos 2) = blength (key e))
    by (rewrite Bk; apply le16_roundtrip; unfold is_uint16; lia).
  assert (E2 : add16 pos 2 = pos + 2) by (apply wrap16_small; lia).
  assert (Hvl : le_combine (bytes_at node (add16 pos 2) 2) = blength (val e))
    by (rewrite E2, Bv; apply le16_roundtrip; unfold is_uint16; lia).
  assert (E4 : add16 pos 4 = pos + 4) by (apply wrap16_small; lia).
  assert (Ev : add16 (add16 pos 4) (blength (key e)) = pos + 4 + blength (key e))
    by (rewrite E4; apply wrap16_small; lia).
  eexists. split.
  - apply (getVal_Ok node n _ pos decode_nkeys Hin Hk Hp0);
      rewrite ?Hkl, ?Hvl, ?Ev, ?E2; lia.
  - cbn [Slice.vis]. rewrite Hkl, Hvl, Ev. unfold blength at 2. rewrite Nat2Z.id.
    exact Bval.
Qed.
End Decode.

Lemma nkeys_with_arr node a :
  firstn 4 a = firstn 4 (arr node) -> length a = length (arr node) ->
  nkeys (with_arr node a) = nkeys node.
Proof.
  intros H4 Hl. pose proof (bcap_with_arr node a Hl) as Hc.
  destruct (Z_lt_le_dec (bcap node) 4) as [Hlt|Hge].
  - rewrite !nkeys_Panic by lia. reflexivity.
  - rewrite !nkeys_Ok by lia. rewrite !bytes_at_arr, arr_with_arr.
    change (Z.to_nat 2) with 2%nat.
    rewrite !(firstn_skipn_comm 2 2). cbn [Nat.add]. rewrite H4. reflexivity.
Qed.

Lemma setPtrs_layout ptrs : forall node n i pre rest,
  nkeys node = Ok n -> arr node = pre ++ rest ->
  Z.of_nat (length pre) = HEADER + 8 * i -> 0 <= i ->
  i + Z.of_nat (length ptrs) <= n ->
  HEADER + 8 * n <= blen node -> HEADER + 8 * n < 2 ^ 16 ->
  setPtrs node i ptrs
  = (with_arr node
       (pre ++ flat_map (le_split 8) ptrs ++ skipn (8 * length ptrs) rest),
     Ok tt).
Proof.
  induction ptrs as [|p ps IH]; intros node n i pre rest Hn Ha Hpre Hi Hin Hbuf Hfit.
  - cbn [setPtrs flat_map length app]. rewrite Nat.mul_0_r. cbn [skipn].
    rewrite <- Ha, with_arr_same.
    reflexivity.
  - cbn [setPtrs length] in *. unfold HEADER in *.
    pose proof (blen_le_bcap node) as Hlc. rewrite bcap_arr, Ha, length_app in Hlc.
    assert (Hpos : wrap16 (ptrPos i) = 4 + 8 * i)
      by (apply wrap16_small; unfold ptrPos, HEADER; lia).
    rewrite (setPtr_Ok node n i p Hn) by (rewrite ?Hpos; lia).
    cbn [and_then]. rewrite Hpos, Ha.
    replace (Z.to_nat (4 + 8 * i)) with (length pre) by lia.
    rewrite splice_prefix, length_le_split.
    set (a1 := pre ++ le_split 8 p ++ skipn 8 rest).
    assert (Hl1 : length a1 = length (arr node)).
    { unfold a1. rewrite Ha, !length_app, length_le_split, length_skipn. lia. }
    rewrite (IH (with_arr node a1) n (i + 1) (pre ++ le_split 8 p) (skipn 8 rest)).
    + rewrite with_arr_twice by exact Hl1. do 2 f_equal.
      cbn [flat_map]. rewrite <- !app_assoc, skipn_skipn. do 4 f_equal. lia.
    + rewrite nkeys_with_arr; [exact Hn | | exact Hl1].
      unfold a1. rewrite Ha, !firstn_app.
      replace (4 - length pre)%nat with 0%nat by lia. reflexivity.
    + rewrite arr_with_arr. unfold a1. rewrite <- app_assoc. reflexivity.
    + rewrite length_app, length_le_split. lia.
    + lia.
    + lia.
    + rewrite blen_with_arr by exact Hl1. lia.
    + lia.
Qed.

Lemma build_Ok c buf :
  length (c_ptrs c) = length (c_entries c) ->
  encoded_size c <= blen buf -> encoded_size c < 2 ^ 16 ->
  build c buf
  = (with_arr buf
       (le_split 2 (c_type c) ++ le_split 2 (c_nkeys c)
        ++ flat_map (le_split 8) (c_ptrs c)
        ++ skipn (Z.to_nat (HEADER + 8 * c_nkeys c)) (arr buf)),
     Ok tt).
Proof.
  intros Hptrs Hlen Hfit.
  pose proof (kv_size_nonneg (c_entries c)) as Hkv.
  pose proof (blen_le_bcap buf) as Hlc.
  assert (Hn : 0 <= c_nkeys c) by (unfold c_nkeys; lia).
  unfold encoded_size, kvStart, HEADER in *.
  unfold build. rewrite setHeader_Ok by lia. cbn [and_then].
  set (hdr := le_split 2 (c_type c) ++ le_split 2 (c_nkeys c)).
  set (a1 := le_split 2 (c_type c) ++ le_split 2 (c_nkeys c) ++ skipn 4 (arr buf)).
  assert (Hl1 : length a1 = length (arr buf)).
  { unfold a1. rewrite !length_app, !length_le_split, length_skipn.
    rewrite bcap_arr in Hlc. lia. }
  assert (Ha1 : a1 = hdr ++ skipn 4 (arr buf))
    by (unfold a1, hdr; rewrite <- app_assoc; reflexivity).
  assert (Hhdr : length hdr = 4%nat)
    by (unfold hdr; rewrite length_app, !length_le_split; reflexivity).
  rewrite (setPtrs_layout (c_ptrs c) (with_arr buf a1) (c_nkeys c) 0 hdr
             (skipn 4 (arr buf))).
  - rewrite with_arr_twice by exact Hl1. do 2 f_equal.
    unfold hdr. rewrite <- !app_assoc, skipn_skipn. do 4 f_equal.
    rewrite Hptrs. unfold c_nkeys. lia.
  - rewrite nkeys_Ok by (rewrite bcap_with_arr by exact Hl1; lia). f_equal.
    rewrite (bytes_at_in (with_arr buf a1) (le_split 2 (c_type c))
               (le_split 2 (c_nkeys c)) (skipn 4 (arr buf))).
    + apply le16_roundtrip. unfold is_uint16. lia.
    + rewrite arr_with_arr. reflexivity.
    + rewrite length_le_split. reflexivity.
    + rewrite length_le_split. reflexivity.
  - rewrite arr_with_arr. exact Ha1.
  - rewrite Hhdr. reflexivity.
  - lia.
  - rewrite Hptrs. unfold c_nkeys. lia.
  - rewrite blen_with_arr by exact Hl1. unfold HEADER. lia.
  - unfold HEADER. lia.
Qed.

(** The buffer of a built node is the page image of its content, followed by
    what the buffer held beyond it. *)
Lemma build_image c buf :
  length (c_ptrs c) = length (c_entries c) -> laid_out c buf ->
  encoded_size c <= blen buf -> encoded_size c < 2 ^ 16 ->
  exists node,
    build c buf = (node, Ok tt) /\ blen node = blen buf /\
    arr node = image c ++ skipn (length (image c)) (arr buf).
Proof.
  intros Hptrs Hlay Hlen Hfit.
  pose proof (kv_size_nonneg (c_entries c)) as Hkv.
  pose proof (blen_le_bcap buf) as Hlc. rewrite bcap_arr in Hlc.
  pose proof (length_image c Hptrs) as Hli.
  pose proof (length_kv_layout (c_entries c)) as Hlk. fold (c_nkeys c) in Hlk.
  assert (Hn : 0 <= c_nkeys c) by (unfold c_nkeys; lia).
  set (q := Z.to_nat (HEADER + 8 * c_nkeys c)).
  assert (Hsplit : skipn q (arr buf)
                   = kv_layout (c_entries c) ++ skipn (length (image c)) (arr buf)).
  { unfold laid_out in Hlay. rewrite bytes_at_arr in Hlay. fold q in Hlay.
    rewrite <- (firstn_skipn (length (kv_layout (c_entries c))) (skipn q (arr buf))) at 1.
    rewrite Hlay, skipn_skipn. do 2 f_equal.
    unfold q, encoded_size, kvStart, HEADER in *. lia. }
  eexists. split; [apply build_Ok; assumption|].
  fold q. rewrite Hsplit, arr_with_arr. split.
  - apply blen_with_arr. rewrite <- Hsplit.
    rewrite !length_app, !length_le_split, length_skipn.
    rewrite (length_flat_map_const (le_split 8) 8) by (intros; apply length_le_split).
    unfold q, encoded_size, kvStart, HEADER, c_nkeys, uint64 in *. lia.
  - unfold image. rewrite <- !app_assoc. reflexivity.
Qed.

(** C1. Round trip.  Take any content (a type, one child pointer and one
    key-value entry per key) whose encoded size fits in 16 bits, as it does
    for every node within a page, and a buffer long enough that holds the
    offset table and the records as the page format lays them out.  Writing
    the header with [setHeader] and the pointers with [setPtr] succeeds, and
    reading the buffer back gives the same type, the same key count, every
    child pointer, and every key and every value byte for byte. *)
Theorem build_roundtrip c buf :
  is_uint16 (c_type c) -> Forall is_uint64 (c_ptrs c) ->
  length (c_ptrs c) = length (c_entries c) -> laid_out c buf ->
  encoded_size c <= blen buf -> encoded_size c < 2 ^ 16 ->
  exists node,
    build c buf = (node, Ok tt) /\
    btype node = Ok (c_type c) /\
    nkeys node = Ok (c_nkeys c) /\
    (forall i p, nth_error (c_ptrs c) i = Some p ->
       getPtr node (Z.of_nat i) = Ok p) /\
    (forall i e, nth_error (c_entries c) i = Some e ->
       (exists s, getKey node (Z.of_nat i) = Ok s /\ Slice.vis s = key e) /\
       (exists s, getVal node (Z.of_nat i) = Ok s /\ Slice.vis s = val e)) /\
    nbytes node = Ok (encoded_size c).
Proof.
  intros Htype Hp64 Hptrs Hlay Hlen Hfit.
  destruct (build_image c buf Hptrs Hlay Hlen Hfit) as (node & Hb & Hbl & Ha).
  rewrite <- Hbl in Hlen.
  exists node. split; [exact Hb|].
  split; [apply (decode_btype c node _ Ha Hptrs Hlen Hfit Htype)|].
  split; [apply (decode_nkeys c node _ Ha Hptrs Hlen Hfit)|].
  split; [intros i p; apply (decode_getPtr c node _ Ha Hptrs Hlen Hfit Hp64)|].
  split.
  - intros i e Hi. split.
    + apply (decode_getKey c node _ Ha Hptrs Hlen Hfit i e Hi).
    + apply (decode_getVal c node _ Ha Hptrs Hlen Hfit i e Hi).
  - apply (decode_nbytes c node _ Ha Hptrs Hlen Hfit).
Qed.

Lemma build_roundtrip_witness :
  is_uint16 (c_type sample_content) /\ Forall is_uint64 (c_ptrs sample_content) /\
  length (c_ptrs sample_content) = length (c_entries sample_content) /\
  laid_out sample_content sample_blank /\
  encoded_size sample_content <= blen sample_blank /\
  encoded_size sample_content < 2 ^ 16 /\
  exists node,
    build sample_content sample_blank = (node, Ok tt) /\
    btype node = Ok BNODE_LEAF /\ nkeys node = Ok 2 /\
    getPtr node 1 = Ok 34 /\
    (exists s, getKey node 1 = Ok s /\ Slice.vis s = map bz [98; 99]) /\
    (exists s, getVal node 1 = Ok s /\ Slice.vis s = map bz [122]).
Proof.
  assert (H1 : is_uint16 (c_type sample_content)) by (split; discriminate || reflexivity).
  assert (H2 : Forall is_uint64 (c_ptrs sample_content))
    by (repeat constructor; discriminate).
  assert (H3 : encoded_size sample_content <= blen sample_blank)
    by (vm_compute; discriminate).
  split; [exact H1|]. split; [exact H2|]. split; [reflexivity|].
  split; [reflexivity|]. split; [exact H3|]. split; [reflexivity|].
  destruct (build_roundtrip sample_content sample_blank H1 H2 eq_refl eq_refl H3 eq_refl)
    as (node & Hb & Ht & Hn & Hp & Hkv & _).
  exists node. split; [exact Hb|]. split; [exact Ht|]. split; [exact Hn|].
  split; [exact (Hp 1%nat 34 eq_refl)|].
  exact (Hkv 1%nat _ eq_refl).
Defined.

(** ** Size limits *)

(** C9. A node with a single entry within the declared limits fits in a
    page: with one key, a key of [klen <= BTREE_MAX_KEY_SIZE] bytes and a
    value of [vlen <= BTREE_MAX_VAL_SIZE] bytes (the offset of the end of the
    record is then [4 + klen + vlen]), [nbytes] is
    [4 + 8 + 2 + 4 + klen + vlen], at most 4018 and so at most
    [BTREE_PAGE_SIZE]; an entry of maximal size takes exactly 4018 bytes.
    Any such entry is storable: built in a buffer of one page, the node
    gives the entry back and [nbytes] is its size. *)
Theorem max_entry_fits_page :
  HEADER + 8 + 2 + 4 + BTREE_MAX_KEY_SIZE + BTREE_MAX_VAL_SIZE = 4018 /\
  4018 <= BTREE_PAGE_SIZE /\
  (forall node klen vlen,
     nkeys node = Ok 1 -> getOffset node 1 = Ok (4 + klen + vlen) ->
     0 <= klen <= BTREE_MAX_KEY_SIZE -> 0 <= vlen <= BTREE_MAX_VAL_SIZE ->
     nbytes node = Ok (HEADER + 8 + 2 + 4 + klen + vlen) /\
     HEADER + 8 + 2 + 4 + klen + vlen <= 4018 /\
     HEADER + 8 + 2 + 4 + klen + vlen <= BTREE_PAGE_SIZE) /\
  (forall t p e buf,
     is_uint16 t -> is_uint64 p ->
     blength (key e) <= BTREE_MAX_KEY_SIZE -> blength (val e) <= BTREE_MAX_VAL_SIZE ->
     blen buf = BTREE_PAGE_SIZE -> laid_out (mkContent t [p] [e]) buf ->
     exists node,
       build (mkContent t [p] [e]) buf = (node, Ok tt) /\
       nbytes node = Ok (HEADER + 8 + 2 + 4 + blength (key e) + blength (val e)) /\
       (exists s, getKey node 0 = Ok s /\ Slice.vis s = key e) /\
       (exists s, getVal node 0 = Ok s /\ Slice.vis s = val e)).
Proof.
  split; [reflexivity|]. split; [discriminate|]. split.
  - intros node klen vlen Hn Ho Hk Hv.
    unfold BTREE_MAX_KEY_SIZE, BTREE_MAX_VAL_SIZE, BTREE_PAGE_SIZE, HEADER in *.
    split; [|lia].
    unfold nbytes. rewrite Hn. cbn [bind].
    rewrite (kvPos_Ok node 1 1 _ Hn (Z.le_refl 1) Ho).
    f_equal. rewrite wrap16_small; unfold kvStart, HEADER; lia.
  - intros t p e buf Ht Hp Hk Hv Hbuf Hlay.
    set (c := mkContent t [p] [e]) in *.
    assert (Hsz : encoded_size c = HEADER + 8 + 2 + 4 + blength (key e) + blength (val e)).
    { unfold encoded_size, kvStart, c_nkeys, c, HEADER. cbn [c_entries length].
      rewrite kv_size_cons. unfold record_size. cbn [kv_size fold_right]. lia. }
    assert (Hfit : encoded_size c <= 4018).
    { rewrite Hsz.
      unfold BTREE_MAX_KEY_SIZE, BTREE_MAX_VAL_SIZE, HEADER in *. lia. }
    assert (Hlen : encoded_size c <= blen buf)
      by (rewrite Hbuf; unfold BTREE_PAGE_SIZE; lia).
    assert (H16 : encoded_size c < 2 ^ 16) by lia.
    destruct (build_image c buf eq_refl Hlay Hlen H16) as (node & Hb & Hbl & Ha).
    rewrite <- Hbl in Hlen.
    exists node. split; [exact Hb|]. split; [|split].
    + rewrite <- Hsz. apply (decode_nbytes c node _ Ha eq_refl Hlen H16).
    + apply (decode_getKey c node _ Ha eq_refl Hlen H16 0%nat e eq_refl).
    + apply (decode_getVal c node _ Ha eq_refl Hlen H16 0%nat e eq_refl).
Qed.

Lemma max_entry_fits_page_witness :
  nkeys sample_one = Ok 1 /\ getOffset sample_one 1 = Ok (4 + 1000 + 3000) /\
  0 <= 1000 <= BTREE_MAX_KEY_SIZE /\ 0 <= 3000 <= BTREE_MAX_VAL_SIZE /\
  nbytes sample_one = Ok 4018 /\
  blen sample_one = BTREE_PAGE_SIZE /\ laid_out sample_one_content sample_one /\
  exists node,
    build sample_one_content sample_one = (node, Ok tt) /\ nbytes node = Ok 4018.
Proof.
  split; [reflexivity|]. split; [reflexivity|].
  split; [split; discriminate|]. split; [split; discriminate|].
  destruct max_entry_fits_page as (_ & _ & H & HB).
  split.
  - destruct (H sample_one 1000 3000 eq_refl eq_refl) as (Hx & _).
    + split; discriminate.
    + split; discriminate.
    + exact Hx.
  - assert (Hl : blen sample_one = BTREE_PAGE_SIZE) by (vm_compute; reflexivity).
    assert (Hlay : laid_out sample_one_content sample_one) by (vm_compute; reflexivity).
    split; [exact Hl|]. split; [exact Hlay|].
    destruct (HB 1 0 (mkEntry (repeat Byte.x00 1000) (repeat Byte.x00 3000)) sample_one)
      as (node & Hb & Hn & _).
    + split; [discriminate | reflexivity].
    + split; [discriminate | reflexivity].
    + vm_compute. discriminate.
    + vm_compute. discriminate.
    + exact Hl.
    + exact Hlay.
    + exists node. split; [exact Hb | exact Hn].
Defined.

(** * Further properties of the codec *)

(** ** Outcomes of a read and of a write at a position *)

(** [Uint64(s[p:])], every case: the slice bound first, then the length. *)
Lemma read64_cases s p :
  0 <= p ->
  (w <- Slice.from s p ;; Binary.Uint64 w)
  = if Slice.len s <? p then Panic SliceBounds
    else if Slice.len s <? p + 8 then Panic IndexOutOfRange
    else Ok (le_combine (Slice.range s p 8)).
Proof.
  intros Hp. destruct (Slice.len s <? p) eqn:E1.
  - apply Z.ltb_lt in E1. rewrite from_Panic by lia. reflexivity.
  - apply Z.ltb_ge in E1. destruct (Slice.len s <? p + 8) eqn:E2.
    + apply Z.ltb_lt in E2. rewrite from_Ok by lia. cbn [bind].
      unfold Binary.Uint64, Slice.len in *. cbn [Slice.vis].
      rewrite length_skipn.
      replace (Z.of_nat (length (Slice.vis s) - Z.to_nat p) <? 8) with true
        by (symmetry; apply Z.ltb_lt; lia).
      reflexivity.
    + apply Z.ltb_ge in E2. apply read64; lia.
Qed.

Lemma read16_cases s p :
  0 <= p ->
  (w <- Slice.from s p ;; Binary.Uint16 w)
  = if Slice.len s <? p then Panic SliceBounds
    else if Slice.len s <? p + 2 then Panic IndexOutOfRange
    else Ok (le_combine (Slice.range s p 2)).
Proof.
  intros Hp. destruct (Slice.len s <? p) eqn:E1.
  - apply Z.ltb_lt in E1. rewrite from_Panic by lia. reflexivity.
  - apply Z.ltb_ge in E1. destruct (Slice.len s <? p + 2) eqn:E2.
    + apply Z.ltb_lt in E2. rewrite from_Ok by lia. cbn [bind].
      unfold Binary.Uint16, Slice.len in *. cbn [Slice.vis].
      rewrite length_skipn.
      replace (Z.of_nat (length (Slice.vis s) - Z.to_nat p) <? 2) with true
        by (symmetry; apply Z.ltb_lt; lia).
      reflexivity.
    + apply Z.ltb_ge in E2. apply read16; lia.
Qed.

(** [PutUint64(node.data[p:], v)], every case. *)
Lemma write64_cases node p v :
  0 <= p ->
  write_through node p (Slice.from (data node) p) (fun w => Binary.PutUint64 w v)
  = if blen node <? p then (node, Panic SliceBounds)
    else if blen node <? p + 8 then (node, Panic IndexOutOfRange)
    else (with_arr node (splice (Z.to_nat p) (le_split 8 v) (arr node)), Ok tt).
Proof.
  intros Hp. unfold blen. destruct (Slice.len (data node) <? p) eqn:E1.
  - apply Z.ltb_lt in E1. unfold write_through. rewrite from_Panic by lia.
    reflexivity.
  - apply Z.ltb_ge in E1. destruct (Slice.len (data node) <? p + 8) eqn:E2.
    + apply Z.ltb_lt in E2. unfold write_through. rewrite from_Ok by lia.
      unfold Binary.PutUint64, Slice.len in *. cbn [Slice.vis].
      rewrite length_skipn.
      replace (Z.of_nat (length (Slice.vis (data node)) - Z.to_nat p) <? 8) with true
        by (symmetry; apply Z.ltb_lt; lia).
      reflexivity.
    + apply Z.ltb_ge in E2. apply write_from64; unfold blen; lia.
Qed.

Lemma getPtr_cases node n i :
  nkeys node = Ok n -> i < n ->
  getPtr node i
  = if blen node <? wrap16 (ptrPos i) then Panic SliceBounds
    else if blen node <? wrap16 (ptrPos i) + 8 then Panic IndexOutOfRange
    else Ok (le_combine (bytes_at node (wrap16 (ptrPos i)) 8)).
Proof.
  intros Hn Hi. unfold getPtr. rewrite Hn. cbn [bind].
  replace (i <? n) with true by (symmetry; apply Z.ltb_lt; lia).
  cbn [assert bind]. rewrite ptr_pos16.
  apply read64_cases. apply wrap16_range.
Qed.

Lemma setPtr_cases node n i v :
  nkeys node = Ok n -> i < n ->
  setPtr node i v
  = if blen node <? wrap16 (ptrPos i) then (node, Panic SliceBounds)
    else if blen node <? wrap16 (ptrPos i) + 8 then (node, Panic IndexOutOfRange)
    else (with_arr node
            (splice (Z.to_nat (wrap16 (ptrPos i))) (le_split 8 v) (arr node)),
          Ok tt).
Proof.
  intros Hn Hi. unfold setPtr. rewrite Hn. cbn [bind].
  replace (i <? n) with true by (symmetry; apply Z.ltb_lt; lia).
  cbn [assert]. rewrite ptr_pos16.
  apply write64_cases. apply wrap16_range.
Qed.

(** ** Header round trip *)

(** X1. After a [setHeader] that returns, [nkeys] reads the key count that
    was written, whatever the length of the slice; [btype] reads the type
    when the slice has 2 bytes or more, and faults otherwise: [setHeader] and
    [nkeys] go by the capacity, [btype] by the length. *)
Theorem setHeader_then_read node t k :
  is_uint16 t -> is_uint16 k -> 4 <= bcap node ->
  snd (setHeader node t k) = Ok tt /\
  nkeys (fst (setHeader node t k)) = Ok k /\
  (2 <= blen node -> btype (fst (setHeader node t k)) = Ok t) /\
  (blen node < 2 -> btype (fst (setHeader node t k)) = Panic IndexOutOfRange).
Proof.
  intros Ht Hk Hc. rewrite setHeader_Ok by exact Hc. cbn [fst snd].
  set (a := le_split 2 t ++ le_split 2 k ++ skipn 4 (arr node)).
  assert (Hl : length a = length (arr node)).
  { unfold a. rewrite !length_app, !length_le_split, length_skipn.
    rewrite bcap_arr in Hc. lia. }
  split; [reflexivity|]. split; [|split].
  - rewrite nkeys_Ok by (rewrite bcap_with_arr by exact Hl; exact Hc). f_equal.
    rewrite (bytes_at_in (with_arr node a) (le_split 2 t) (le_split 2 k)
               (skipn 4 (arr node))).
    + apply le16_roundtrip, Hk.
    + apply arr_with_arr.
    + rewrite length_le_split. reflexivity.
    + rewrite length_le_split. reflexivity.
  - intros H2. rewrite btype_Ok by (rewrite blen_with_arr by exact Hl; exact H2).
    f_equal.
    rewrite (bytes_at_in (with_arr node a) [] (le_split 2 t)
               (le_split 2 k ++ skipn 4 (arr node))).
    + apply le16_roundtrip, Ht.
    + apply arr_with_arr.
    + reflexivity.
    + rewrite length_le_split. reflexivity.
  - intros H2. apply btype_Panic. rewrite blen_with_arr by exact Hl. exact H2.
Qed.

Lemma setHeader_then_read_witness :
  is_uint16 1 /\ is_uint16 3 /\ 4 <= bcap sample /\
  nkeys (fst (setHeader sample 1 3)) = Ok 3 /\
  btype (fst (setHeader sample 1 3)) = Ok 1 /\
  btype (fst (setHeader (mkBNode (Slice.mk [] (map bz [0; 0; 0; 0]))) 1 3))
  = Panic IndexOutOfRange.
Proof.
  assert (H1 : is_uint16 1) by (split; [discriminate | reflexivity]).
  assert (H3 : is_uint16 3) by (split; [discriminate | reflexivity]).
  assert (Hc : 4 <= bcap sample) by (vm_compute; discriminate).
  split; [exact H1|]. split; [exact H3|]. split; [exact Hc|].
  destruct (setHeader_then_read sample 1 3 H1 H3 Hc) as (_ & Hn & Hb & _).
  split; [exact Hn|]. split; [apply Hb; vm_compute; discriminate|].
  destruct (setHeader_then_read (mkBNode (Slice.mk [] (map bz [0; 0; 0; 0]))) 1 3 H1 H3)
    as (_ & _ & _ & Hf).
  - vm_compute. discriminate.
  - apply Hf. reflexivity.
Defined.

(** X2. [setHeader] is not atomic.  On a buffer of capacity 2 or 3 it has
    written the type when the slice expression for the key count faults: the
    call faults and the first two bytes are changed.  Below capacity 2 it
    faults with the buffer untouched; from capacity 4 on it returns. *)
Theorem setHeader_by_capacity node t k :
  (bcap node < 2 -> setHeader node t k = (node, Panic SliceBounds)) /\
  (2 <= bcap node < 4 ->
     snd (setHeader node t k) = Panic SliceBounds /\
     arr (fst (setHeader node t k)) = le_split 2 t ++ skipn 2 (arr node)) /\
  (4 <= bcap node ->
     snd (setHeader node t k) = Ok tt /\
     arr (fst (setHeader node t k))
     = le_split 2 t ++ le_split 2 k ++ skipn 4 (arr node)).
Proof.
  split; [apply setHeader_Panic|]. split.
  - intros H. rewrite setHeader_partial by exact H. cbn [fst snd].
    split; [reflexivity | apply arr_with_arr].
  - intros H. rewrite setHeader_Ok by exact H. cbn [fst snd].
    split; [reflexivity | apply arr_with_arr].
Qed.

Lemma setHeader_by_capacity_witness :
  2 <= bcap (mkBNode (Slice.mk [] (map bz [0; 0; 9]))) < 4 /\
  snd (setHeader (mkBNode (Slice.mk [] (map bz [0; 0; 9]))) 2 1) = Panic SliceBounds /\
  arr (fst (setHeader (mkBNode (Slice.mk [] (map bz [0; 0; 9]))) 2 1))
  = map bz [2; 0; 9].
Proof.
  assert (H : 2 <= bcap (mkBNode (Slice.mk [] (map bz [0; 0; 9]))) < 4)
    by (split; vm_compute; [discriminate | reflexivity]).
  split; [exact H|].
  destruct (setHeader_by_capacity (mkBNode (Slice.mk [] (map bz [0; 0; 9]))) 2 1)
    as (_ & Hp & _).
  destruct (Hp H) as [Hs Ha]. split; [exact Hs|]. rewrite Ha. reflexivity.
Defined.

(** ** Child pointers: round trip, independence, composition *)

Section SpliceAlgebra.
Implicit Types l bs : list byte.

Lemma splice_splice_same p b1 b2 l :
  length b1 = length b2 -> (p + length b1 <= length l)%nat ->
  splice p b2 (splice p b1 l) = splice p b2 l.
Proof.
  intros Hb Hp. unfold splice at 2.
  assert (Hpre : length (firstn p l) = p) by (rewrite length_firstn; lia).
  rewrite <- Hpre at 1. rewrite splice_prefix.
  rewrite <- Hb, skipn_app_exact by reflexivity.
  unfold splice. rewrite Hb. reflexivity.
Qed.

Lemma range_splice_disjoint p bs l q k :
  (p + length bs <= length l)%nat ->
  (q + k <= p)%nat \/ (p + length bs <= q)%nat ->
  firstn k (skipn q (splice p bs l)) = firstn k (skipn q l).
Proof.
  intros Hp [Hd|Hd].
  - rewrite !firstn_skipn_comm. f_equal. apply firstn_splice; lia.
  - rewrite skipn_splice by lia. reflexivity.
Qed.

Lemma split3 l (a k : nat) :
  (a + k <= length l)%nat ->
  exists pre old post,
    l = pre ++ old ++ post /\ length pre = a /\ length old = k.
Proof.
  intros H. exists (firstn a l), (firstn k (skipn a l)), (skipn k (skipn a l)).
  rewrite firstn_skipn, firstn_skipn, !length_firstn, length_skipn.
  repeat split; lia.
Qed.

Lemma splice_mid pre old bs post p :
  p = length pre -> length old = length bs ->
  splice p bs (pre ++ old ++ post) = pre ++ bs ++ post.
Proof.
  intros -> Hl. rewrite splice_prefix, <- Hl, skipn_app_exact by reflexivity.
  reflexivity.
Qed.

Lemma splice_commute p q b1 b2 l :
  (p + length b1 <= q)%nat -> (q + length b2 <= length l)%nat ->
  splice q b2 (splice p b1 l) = splice p b1 (splice q b2 l).
Proof.
  intros Hpq Hq.
  destruct (split3 l p (length b1)) as (A & o1 & rest & -> & HA & Ho1); [lia|].
  rewrite !length_app in Hq.
  destruct (split3 rest (q - p - length b1) (length b2))
    as (M & o2 & R & -> & HM & Ho2); [lia|].
  rewrite (splice_mid A o1 b1 (M ++ o2 ++ R) p) by auto.
  replace (A ++ b1 ++ M ++ o2 ++ R) with ((A ++ b1 ++ M) ++ o2 ++ R)
    by (rewrite <- !app_assoc; reflexivity).
  rewrite (splice_mid (A ++ b1 ++ M) o2 b2 R q)
    by (rewrite ?length_app; lia).
  replace (A ++ o1 ++ M ++ o2 ++ R) with ((A ++ o1 ++ M) ++ o2 ++ R)
    by (rewrite <- !app_assoc; reflexivity).
  rewrite (splice_mid (A ++ o1 ++ M) o2 b2 R q)
    by (rewrite ?length_app; lia).
  rewrite <- !app_assoc.
  rewrite (splice_mid A o1 b1 (M ++ b2 ++ R) p) by auto.
  reflexivity.
Qed.
End SpliceAlgebra.

(** What [setPtr] does to a node with [n] keys, whatever the outcome: the
    result is the node over an array of the same length that differs at most
    in the 8 bytes at the pointer's position. *)
Lemma setPtr_shape node n i v :
  nkeys node = Ok n -> 0 <= i < n ->
  exists a,
    fst (setPtr node i v) = with_arr node a /\
    length a = length (arr node) /\
    firstn (Z.to_nat (wrap16 (ptrPos i))) a
    = firstn (Z.to_nat (wrap16 (ptrPos i))) (arr node) /\
    skipn (Z.to_nat (wrap16 (ptrPos i) + 8)) a
    = skipn (Z.to_nat (wrap16 (ptrPos i) + 8)) (arr node) /\
    nkeys (with_arr node a) = Ok n /\
    blen (with_arr node a) = blen node.
Proof.
  intros Hn Hi. set (p := wrap16 (ptrPos i)).
  pose proof (ptr_pos_above_header i) as Hh. fold p in Hh. unfold HEADER in Hh.
  rewrite (setPtr_cases node n i v Hn) by lia. fold p.
  destruct (blen node <? p) eqn:E1;
    [|destruct (blen node <? p + 8) eqn:E2].
  1,2: exists (arr node); cbn [fst]; rewrite with_arr_same; auto 10.
  apply Z.ltb_ge in E1, E2. cbn [fst].
  pose proof (blen_le_bcap node) as Hlc. rewrite bcap_arr in Hlc.
  set (a := splice (Z.to_nat p) (le_split 8 v) (arr node)).
  assert (Hl : length a = length (arr node))
    by (apply length_splice; rewrite length_le_split; lia).
  assert (Hf : firstn (Z.to_nat p) a = firstn (Z.to_nat p) (arr node))
    by (apply firstn_splice; lia).
  exists a. split; [reflexivity|]. split; [exact Hl|]. split; [exact Hf|].
  split; [|split].
  - apply skipn_splice; rewrite length_le_split; lia.
  - rewrite nkeys_with_arr; [exact Hn | | exact Hl].
    apply firstn_splice; lia.
  - apply blen_with_arr, Hl.
Qed.

(** X3. Round trip of a child pointer: when [setPtr i v] returns, the key
    count is unchanged and [getPtr i] is [v]. *)
Theorem setPtr_then_getPtr node n i v :
  nkeys node = Ok n -> 0 <= i < n -> is_uint64 v ->
  snd (setPtr node i v) = Ok tt ->
  nkeys (fst (setPtr node i v)) = Ok n /\
  getPtr (fst (setPtr node i v)) i = Ok v.
Proof.
  intros Hn Hi Hv. set (p := wrap16 (ptrPos i)).
  pose proof (ptr_pos_above_header i) as Hh. fold p in Hh. unfold HEADER in Hh.
  rewrite (setPtr_cases node n i v Hn) by lia. fold p.
  destruct (blen node <? p) eqn:E1; [discriminate|].
  destruct (blen node <? p + 8) eqn:E2; [discriminate|].
  apply Z.ltb_ge in E1, E2. intros _. cbn [fst].
  pose proof (blen_le_bcap node) as Hlc. rewrite bcap_arr in Hlc.
  set (a := splice (Z.to_nat p) (le_split 8 v) (arr node)).
  assert (Hl : length a = length (arr node))
    by (apply length_splice; rewrite length_le_split; lia).
  assert (Hn' : nkeys (with_arr node a) = Ok n).
  { rewrite nkeys_with_arr; [exact Hn | | exact Hl]. apply firstn_splice; lia. }
  split; [exact Hn'|].
  rewrite (getPtr_cases _ n i Hn') by lia. fold p.
  rewrite blen_with_arr by exact Hl.
  replace (blen node <? p) with false by (symmetry; apply Z.ltb_ge; lia).
  replace (blen node <? p + 8) with false by (symmetry; apply Z.ltb_ge; lia).
  f_equal. rewrite bytes_at_arr, arr_with_arr.
  pose proof (range_splice (Z.to_nat p) (le_split 8 v) (arr node)) as R.
  rewrite length_le_split in R. fold a in R. rewrite R by lia.
  apply le64_roundtrip, Hv.
Qed.

Lemma setPtr_then_getPtr_witness :
  nkeys sample = Ok 2 /\ 0 <= 1 < 2 /\ is_uint64 (2 ^ 64 - 1) /\
  snd (setPtr sample 1 (2 ^ 64 - 1)) = Ok tt /\
  getPtr (fst (setPtr sample 1 (2 ^ 64 - 1))) 1 = Ok (2 ^ 64 - 1).
Proof.
  assert (Hv : is_uint64 (2 ^ 64 - 1)) by (split; [discriminate | reflexivity]).
  split; [reflexivity|]. split; [lia|]. split; [exact Hv|].
  split; [reflexivity|].
  destruct (setPtr_then_getPtr sample 2 1 (2 ^ 64 - 1) eq_refl ltac:(lia) Hv eq_refl)
    as [_ H].
  exact H.
Defined.

(** X4. A pointer slot can be written exactly when it can be read: on any
    node and for any index, [setPtr] returns when [getPtr] does, and
    otherwise faults with the same fault and leaves the buffer as it was. *)
Theorem setPtr_faults_as_getPtr node i v :
  match getPtr node i with
  | Ok _ => snd (setPtr node i v) = Ok tt
  | Panic f => setPtr node i v = (node, Panic f)
  end.
Proof.
  destruct (nkeys node) as [n|f] eqn:Hn.
  - destruct (Z_lt_le_dec i n) as [Hi|Hi].
    + rewrite (getPtr_cases node n i Hn Hi), (setPtr_cases node n i v Hn Hi).
      destruct (blen node <? wrap16 (ptrPos i)); [reflexivity|].
      destruct (blen node <? wrap16 (ptrPos i) + 8); reflexivity.
    + rewrite (getPtr_assert node n i Hn Hi). apply (setPtr_assert node n i v Hn Hi).
  - unfold getPtr, setPtr. rewrite Hn. reflexivity.
Qed.

(** X5. Writing one pointer leaves the others as they were: for two
    different indices below the key count, in a node whose pointer array
    ends within 2^16 bytes, [getPtr j] is the same before and after
    [setPtr i v], whether that call returns or faults. *)
Theorem setPtr_other_index node n i j v :
  nkeys node = Ok n -> 0 <= i < n -> 0 <= j < n -> i <> j ->
  HEADER + 8 * n <= 2 ^ 16 ->
  getPtr (fst (setPtr node i v)) j = getPtr node j.
Proof.
  intros Hn Hi Hj Hij Hfit.
  destruct (setPtr_shape node n i v Hn Hi) as (a & -> & Hl & Hf & Hs & Hn' & Hb).
  assert (Pi : wrap16 (ptrPos i) = 4 + 8 * i)
    by (apply wrap16_small; unfold ptrPos, HEADER in *; lia).
  assert (Pj : wrap16 (ptrPos j) = 4 + 8 * j)
    by (apply wrap16_small; unfold ptrPos, HEADER in *; lia).
  rewrite (getPtr_cases _ n j Hn'), (getPtr_cases node n j Hn) by lia.
  rewrite Hb, Pj, Pi in *.
  destruct (blen node <? 4 + 8 * j); [reflexivity|].
  destruct (blen node <? 4 + 8 * j + 8); [reflexivity|].
  f_equal. f_equal. rewrite !bytes_at_arr, arr_with_arr.
  destruct (Z_lt_le_dec j i) as [Hlt|Hge].
  - rewrite !firstn_skipn_comm. f_equal.
    assert (G : forall x : list byte,
               firstn (Z.to_nat (4 + 8 * j) + 8) x
               = firstn (Z.to_nat (4 + 8 * j) + 8) (firstn (Z.to_nat (4 + 8 * i)) x))
      by (intros x; rewrite firstn_firstn; f_equal; lia).
    rewrite (G a), (G (arr node)), Hf. reflexivity.
  - replace (Z.to_nat (4 + 8 * j))
      with (Z.to_nat (4 + 8 * j - (4 + 8 * i + 8)) + Z.to_nat (4 + 8 * i + 8))%nat by lia.
    rewrite <- !skipn_skipn, Hs. reflexivity.
Qed.

Lemma setPtr_other_index_witness :
  nkeys sample = Ok 2 /\ 0 <= 0 < 2 /\ 0 <= 1 < 2 /\ 0 <> 1 /\
  HEADER + 8 * 2 <= 2 ^ 16 /\
  getPtr (fst (setPtr sample 0 99)) 1 = getPtr sample 1.
Proof.
  split; [reflexivity|]. split; [lia|]. split; [lia|]. split; [discriminate|].
  split; [discriminate|].
  apply (setPtr_other_index sample 2 0 1 99 eq_refl); try lia; discriminate.
Defined.

(** X6. Pointer positions are 16-bit: [HEADER + 8 * idx] wraps at index
    8192.  In a node that announces more keys than that, index [i + 8192]
    addresses the slot of index [i]: [getPtr] reads the same pointer and
    [setPtr] writes the same bytes. *)
Theorem ptr_index_wraps node n i v :
  nkeys node = Ok n -> i + 8192 < n ->
  getPtr node (i + 8192) = getPtr node i /\
  setPtr node (i + 8192) v = setPtr node i v.
Proof.
  intros Hn Hi.
  assert (E : wrap16 (ptrPos (i + 8192)) = wrap16 (ptrPos i)).
  { unfold wrap16, ptrPos, HEADER. change (2 ^ 16) with 65536.
    Z.div_mod_to_equations. lia. }
  split.
  - rewrite (getPtr_cases node n (i + 8192) Hn Hi), (getPtr_cases node n i Hn) by lia.
    rewrite E. reflexivity.
  - rewrite (setPtr_cases node n (i + 8192) v Hn Hi), (setPtr_cases node n i v Hn) by lia.
    rewrite E. reflexivity.
Qed.

Lemma ptr_index_wraps_witness :
  nkeys (mkBNode (Slice.of_list (map bz [1; 0; 1; 32; 7; 0; 0; 0; 0; 0; 0; 0])))
  = Ok 8193 /\
  0 + 8192 < 8193 /\
  getPtr (mkBNode (Slice.of_list (map bz [1; 0; 1; 32; 7; 0; 0; 0; 0; 0; 0; 0]))) 8192
  = Ok 7.
Proof.
  split; [reflexivity|]. split; [reflexivity|].
  destruct (ptr_index_wraps
              (mkBNode (Slice.of_list (map bz [1; 0; 1; 32; 7; 0; 0; 0; 0; 0; 0; 0])))
              8193 0 0 eq_refl eq_refl) as [H _].
  cbn [Z.add] in H. rewrite H. reflexivity.
Defined.

Lemma setPtr_fst node n i v :
  nkeys node = Ok n -> i < n ->
  fst (setPtr node i v)
  = if blen node <? wrap16 (ptrPos i) + 8 then node
    else with_arr node
           (splice (Z.to_nat (wrap16 (ptrPos i))) (le_split 8 v) (arr node)).
Proof.
  intros Hn Hi. rewrite (setPtr_cases node n i v Hn Hi).
  destruct (blen node <? wrap16 (ptrPos i)) eqn:E1.
  - apply Z.ltb_lt in E1.
    replace (blen node <? wrap16 (ptrPos i) + 8) with true
      by (symmetry; apply Z.ltb_lt; lia).
    reflexivity.
  - destruct (blen node <? wrap16 (ptrPos i) + 8); reflexivity.
Qed.

(** The node after a pointer was written. *)
Lemma written_ptr node n i v :
  nkeys node = Ok n -> wrap16 (ptrPos i) + 8 <= blen node ->
  let a := splice (Z.to_nat (wrap16 (ptrPos i))) (le_split 8 v) (arr node) in
  length a = length (arr node) /\
  nkeys (with_arr node a) = Ok n /\ blen (with_arr node a) = blen node.
Proof.
  intros Hn Hp a.
  pose proof (ptr_pos_above_header i) as Hh. unfold HEADER in Hh.
  pose proof (blen_le_bcap node) as Hlc. rewrite bcap_arr in Hlc.
  assert (Hl : length a = length (arr node))
    by (apply length_splice; rewrite length_le_split; lia).
  split; [exact Hl|]. split; [|apply blen_with_arr, Hl].
  rewrite nkeys_with_arr; [exact Hn | | exact Hl]. apply firstn_splice; lia.
Qed.

(** X7. The last write wins.  Two [setHeader] in a row leave the buffer as the
    second alone does, whatever its capacity, and so do two [setPtr] at the
    same index. *)
Theorem last_write_wins :
  (forall node t1 k1 t2 k2,
     fst (setHeader (fst (setHeader node t1 k1)) t2 k2) = fst (setHeader node t2 k2)) /\
  (forall node n i v1 v2, nkeys node = Ok n -> 0 <= i < n ->
     fst (setPtr (fst (setPtr node i v1)) i v2) = fst (setPtr node i v2)).
Proof.
  split.
  - intros node t1 k1 t2 k2. pose proof (bcap_arr node) as Hc.
    destruct (Z_lt_le_dec (bcap node) 2) as [H2|H2];
      [|destruct (Z_lt_le_dec (bcap node) 4) as [H4|H4]].
    + rewrite (setHeader_Panic node t1 k1) by exact H2. reflexivity.
    + rewrite (setHeader_partial node t1 k1), (setHeader_partial node t2 k2) by lia.
      cbn [fst].
      assert (Hl : length (le_split 2 t1 ++ skipn 2 (arr node)) = length (arr node))
        by (rewrite length_app, length_le_split, length_skipn; lia).
      rewrite setHeader_partial by (rewrite bcap_with_arr by exact Hl; lia).
      cbn [fst]. rewrite with_arr_twice, arr_with_arr by exact Hl.
      rewrite skipn_app_exact by (rewrite length_le_split; reflexivity).
      reflexivity.
    + rewrite (setHeader_Ok node t1 k1), (setHeader_Ok node t2 k2) by lia.
      cbn [fst].
      assert (Hl : length (le_split 2 t1 ++ le_split 2 k1 ++ skipn 4 (arr node))
                   = length (arr node))
        by (rewrite !length_app, !length_le_split, length_skipn; lia).
      rewrite setHeader_Ok by (rewrite bcap_with_arr by exact Hl; lia).
      cbn [fst]. rewrite with_arr_twice, arr_with_arr by exact Hl.
      rewrite (app_assoc (le_split 2 t1)).
      rewrite skipn_app_exact by (rewrite length_app, !length_le_split; reflexivity).
      reflexivity.
  - intros node n i v1 v2 Hn Hi.
    rewrite (setPtr_fst node n i v1 Hn), (setPtr_fst node n i v2 Hn) by lia.
    destruct (blen node <? wrap16 (ptrPos i) + 8) eqn:E.
    + rewrite (setPtr_fst node n i v2 Hn), E by lia. reflexivity.
    + apply Z.ltb_ge in E.
      destruct (written_ptr node n i v1 Hn E) as (Hl & Hn' & Hb).
      rewrite (setPtr_fst _ n i v2 Hn') by lia. rewrite Hb.
      replace (blen node <? wrap16 (ptrPos i) + 8) with false
        by (symmetry; apply Z.ltb_ge; lia).
      rewrite with_arr_twice, arr_with_arr by exact Hl.
      rewrite splice_splice_same; [reflexivity | rewrite !length_le_split; reflexivity |].
      rewrite length_le_split.
      pose proof (blen_le_bcap node) as Hlc. rewrite bcap_arr in Hlc.
      pose proof (wrap16_range (ptrPos i)). lia.
Qed.

Lemma last_write_wins_witness :
  nkeys sample = Ok 2 /\ 0 <= 1 < 2 /\
  fst (setPtr (fst (setPtr sample 1 5)) 1 6) = fst (setPtr sample 1 6).
Proof.
  split; [reflexivity|]. split; [lia|].
  destruct last_write_wins as [_ H].
  apply (H sample 2 1 5 6 eq_refl). lia.
Defined.

(** X8. Writes to different pointers commute: in a node whose pointer array
    ends within 2^16 bytes, [setPtr i v] then [setPtr j w] leaves the buffer
    as [setPtr j w] then [setPtr i v] does, for [i <> j] below the key count,
    also when one of the slots lies beyond the end of the buffer. *)
Theorem setPtr_commute node n i j v w :
  nkeys node = Ok n -> 0 <= i < n -> 0 <= j < n -> i <> j ->
  HEADER + 8 * n <= 2 ^ 16 ->
  fst (setPtr (fst (setPtr node i v)) j w) = fst (setPtr (fst (setPtr node j w)) i v).
Proof.
  intros Hn Hi Hj Hij Hfit.
  assert (Pi : wrap16 (ptrPos i) = 4 + 8 * i)
    by (apply wrap16_small; unfold ptrPos, HEADER in *; lia).
  assert (Pj : wrap16 (ptrPos j) = 4 + 8 * j)
    by (apply wrap16_small; unfold ptrPos, HEADER in *; lia).
  pose proof (blen_le_bcap node) as Hlc. rewrite bcap_arr in Hlc.
  rewrite (setPtr_fst node n i v Hn), (setPtr_fst node n j w Hn) by lia.
  destruct (blen node <? wrap16 (ptrPos i) + 8) eqn:Ei;
    destruct (blen node <? wrap16 (ptrPos j) + 8) eqn:Ej.
  - rewrite (setPtr_fst node n j w Hn), (setPtr_fst node n i v Hn), Ei, Ej by lia.
    reflexivity.
  - apply Z.ltb_ge in Ej.
    destruct (written_ptr node n j w Hn Ej) as (Hl & Hn' & Hb).
    rewrite (setPtr_fst node n j w Hn) by lia.
    rewrite (setPtr_fst _ n i v Hn') by lia. rewrite Hb, Ei.
    replace (blen node <? wrap16 (ptrPos j) + 8) with false
      by (symmetry; apply Z.ltb_ge; lia).
    reflexivity.
  - apply Z.ltb_ge in Ei.
    destruct (written_ptr node n i v Hn Ei) as (Hl & Hn' & Hb).
    rewrite (setPtr_fst node n i v Hn) by lia.
    rewrite (setPtr_fst _ n j w Hn') by lia. rewrite Hb, Ej.
    replace (blen node <? wrap16 (ptrPos i) + 8) with false
      by (symmetry; apply Z.ltb_ge; lia).
    reflexivity.
  - apply Z.ltb_ge in Ei, Ej.
    destruct (written_ptr node n i v Hn Ei) as (Hli & Hni & Hbi).
    destruct (written_ptr node n j w Hn Ej) as (Hlj & Hnj & Hbj).
    rewrite (setPtr_fst _ n j w Hni), (setPtr_fst _ n i v Hnj) by lia.
    rewrite Hbi, Hbj.
    replace (blen node <? wrap16 (ptrPos i) + 8) with false
      by (symmetry; apply Z.ltb_ge; lia).
    replace (blen node <? wrap16 (ptrPos j) + 8) with false
      by (symmetry; apply Z.ltb_ge; lia).
    rewrite !with_arr_twice, !arr_with_arr by assumption.
    f_equal. rewrite Pi, Pj in *.
    destruct (Z_lt_le_dec i j) as [Hlt|Hge].
    + apply splice_commute; rewrite length_le_split; lia.
    + symmetry. apply splice_commute; rewrite length_le_split; lia.
Qed.

Lemma setPtr_commute_witness :
  nkeys sample = Ok 2 /\ 0 <= 0 < 2 /\ 0 <= 1 < 2 /\ 0 <> 1 /\
  HEADER + 8 * 2 <= 2 ^ 16 /\
  fst (setPtr (fst (setPtr sample 0 5)) 1 6) = fst (setPtr (fst (setPtr sample 1 6)) 0 5).
Proof.
  split; [reflexivity|]. split; [lia|]. split; [lia|]. split; [discriminate|].
  split; [discriminate|].
  apply (setPtr_commute sample 2 0 1 5 6 eq_refl); try lia; discriminate.
Defined.

(** ** Buffers too short, indices out of range *)

(** X9. On a buffer of capacity below 4, a nil slice included, the key count
    cannot be read and every accessor that checks its index against it
    faults on the slice bound, whatever the index; [setPtr] leaves the buffer
    as it was.  Only [getOffset 0] returns, since it reads nothing. *)
Theorem short_buffer_faults node :
  bcap node < 4 ->
  nkeys node = Panic SliceBounds /\ nbytes node = Panic SliceBounds /\
  getOffset node 0 = Ok 0 /\
  (forall i,
     getPtr node i = Panic SliceBounds /\ kvPos node i = Panic SliceBounds /\
     getKey node i = Panic SliceBounds /\ getVal node i = Panic SliceBounds /\
     (1 <= i -> getOffset node i = Panic SliceBounds) /\
     forall v, setPtr node i v = (node, Panic SliceBounds)).
Proof.
  intros H. pose proof (nkeys_Panic node H) as Hn.
  split; [exact Hn|]. split; [unfold nbytes; rewrite Hn; reflexivity|].
  split; [reflexivity|]. intros i.
  split; [unfold getPtr; rewrite Hn; reflexivity|].
  split; [unfold kvPos; rewrite Hn; reflexivity|].
  split; [unfold getKey; rewrite Hn; reflexivity|].
  split; [unfold getVal; rewrite Hn; reflexivity|].
  split.
  - intros Hi. unfold getOffset, offsetPos.
    replace (i =? 0) with false by (symmetry; apply Z.eqb_neq; lia).
    replace (1 <=? i) with true by (symmetry; apply Z.leb_le; lia).
    rewrite Hn. reflexivity.
  - intros v. unfold setPtr. rewrite Hn. reflexivity.
Qed.

Lemma short_buffer_faults_witness :
  bcap (mkBNode (Slice.of_list [])) < 4 /\
  getKey (mkBNode (Slice.of_list [])) 0 = Panic SliceBounds /\
  getOffset (mkBNode (Slice.of_list [])) 1 = Panic SliceBounds.
Proof.
  split; [reflexivity|].
  destruct (short_buffer_faults (mkBNode (Slice.of_list [])) eq_refl)
    as (_ & _ & _ & H).
  destruct (H 0) as (_ & _ & Hk & _). split; [exact Hk|].
  destruct (H 1) as (_ & _ & _ & _ & Ho & _). apply Ho. lia.
Defined.

(** X10. The index check of the offsets.  [offsetPos 0] fails its assertion
    on every node, without the key count being read.  With [n] keys,
    [offsetPos i] fails its assertion exactly for [i = 0] and [i > n], and
    [getOffset i] exactly for [i > n]: index 0 is answered before the
    check. *)
Theorem offset_index_check :
  (forall node, offsetPos node 0 = Panic AssertFailed) /\
  (forall node n i, nkeys node = Ok n -> 0 <= i ->
     (offsetPos node i = Panic AssertFailed <-> i = 0 \/ n < i) /\
     (getOffset node i = Panic AssertFailed <-> n < i)).
Proof.
  split; [reflexivity|].
  intros node n i Hn Hi.
  pose proof (nkeys_inv node n Hn) as (_ & _ & Hr). unfold is_uint16 in Hr.
  split; split.
  - intros H. destruct (Z.eq_dec i 0) as [->|Hne]; [left; reflexivity|].
    right. destruct (Z_lt_le_dec n i) as [Hlt|Hle]; [exact Hlt|].
    rewrite (offsetPos_Ok node n i Hn) in H by lia. discriminate.
  - intros H. apply (offsetPos_Panic node n i Hn). lia.
  - intros H. destruct (Z_lt_le_dec n i) as [Hlt|Hle]; [exact Hlt|exfalso].
    destruct (Z.eq_dec i 0) as [->|Hne]; [discriminate H|].
    rewrite (getOffset_pos node n i Hn) in H by lia.
    rewrite read16_cases in H by apply wrap16_range.
    destruct (Slice.len (data node) <? wrap16 (offPos n i)); [discriminate|].
    destruct (Slice.len (data node) <? wrap16 (offPos n i) + 2); discriminate.
  - intros H. unfold getOffset.
    replace (i =? 0) with false by (symmetry; apply Z.eqb_neq; lia).
    rewrite (offsetPos_Panic node n i Hn) by lia. reflexivity.
Qed.

Lemma offset_index_check_witness :
  nkeys sample = Ok 2 /\ 0 <= 3 /\ getOffset sample 3 = Panic AssertFailed.
Proof.
  split; [reflexivity|]. split; [lia|].
  destruct offset_index_check as [_ H].
  destruct (H sample 2 3 eq_refl ltac:(lia)) as [_ Hg]. apply Hg. lia.
Defined.

(** ** Keys and values: bounds and aliasing *)

(** [s[q:][:k]], every case. *)
Lemma from_upto_cases s q k :
  0 <= q -> 0 <= k ->
  (s1 <- Slice.from s q ;; Slice.upto s1 k)
  = if (Slice.len s <? q) || (Slice.cap s <? q + k) then Panic SliceBounds
    else Ok (Slice.mk (Slice.range s q (Z.to_nat k))
                      (skipn (Z.to_nat (q + k)) (Slice.backing s))).
Proof.
  intros Hq Hk.
  destruct (Slice.len s <? q) eqn:E1; [|destruct (Slice.cap s <? q + k) eqn:E2];
    cbn [orb].
  - apply Z.ltb_lt in E1. apply from_upto_Panic; auto.
  - apply Z.ltb_ge in E1. apply Z.ltb_lt in E2. apply from_upto_Panic; auto.
  - apply Z.ltb_ge in E1, E2. apply from_upto; lia.
Qed.

Lemma getKey_cases node n i pos :
  nkeys node = Ok n -> i < n -> kvPos node i = Ok pos ->
  getKey node i
  = if blen node <? pos then Panic SliceBounds
    else if blen node <? pos + 2 then Panic IndexOutOfRange
    else
      let klen := le_combine (bytes_at node pos 2) in
      let kp := add16 pos 4 in
      if (blen node <? kp) || (bcap node <? kp + klen) then Panic SliceBounds
      else Ok (Slice.mk (bytes_at node kp (Z.to_nat klen))
                        (skipn (Z.to_nat (kp + klen)) (arr node))).
Proof.
  intros Hn Hi Hk. pose proof (kvPos_range node i pos Hk) as [Hpos _].
  unfold getKey. rewrite Hn. cbn [bind]. asserted. rewrite Hk. cbn [bind].
  pose proof (read16_cases (data node) pos Hpos) as R. unfold blen.
  destruct (Slice.len (data node) <? pos);
    [|destruct (Slice.len (data node) <? pos + 2)].
  1,2: destruct (Slice.from (data node) pos); cbn [bind] in R |- *;
       [rewrite R; reflexivity | injection R as ->; reflexivity].
  destruct (Slice.from (data node) pos); cbn [bind] in R |- *; [|discriminate R].
  rewrite R. cbn [bind].
  apply from_upto_cases; [apply wrap16_range | apply le_combine_bound].
Qed.

Lemma getVal_cases node n i pos :
  nkeys node = Ok n -> i < n -> kvPos node i = Ok pos ->
  getVal node i
  = if blen node <? pos then Panic SliceBounds
    else if blen node <? pos + 2 then Panic IndexOutOfRange
    else if blen node <? add16 pos 2 then Panic SliceBounds
    else if blen node <? add16 pos 2 + 2 then Panic IndexOutOfRange
    else
      let klen := le_combine (bytes_at node pos 2) in
      let vlen := le_combine (bytes_at node (add16 pos 2) 2) in
      let vp := add16 (add16 pos 4) klen in
      if (blen node <? vp) || (bcap node <? vp + vlen) then Panic SliceBounds
      else Ok (Slice.mk (bytes_at node vp (Z.to_nat vlen))
                        (skipn (Z.to_nat (vp + vlen)) (arr node))).
Proof.
  intros Hn Hi Hk. pose proof (kvPos_range node i pos Hk) as [Hpos _].
  unfold getVal. rewrite Hn. cbn [bind]. asserted. rewrite Hk. cbn [bind].
  pose proof (read16_cases (data node) pos Hpos) as R.
  pose proof (read16_cases (data node) (add16 pos 2) (proj1 (wrap16_range _))) as R2.
  unfold blen.
  destruct (Slice.len (data node) <? pos);
    [|destruct (Slice.len (data node) <? pos + 2)].
  1,2: destruct (Slice.from (data node) pos); cbn [bind] in R |- *;
       [rewrite R; reflexivity | injection R as ->; reflexivity].
  destruct (Slice.from (data node) pos) as [w|]; cbn [bind] in R |- *; [|discriminate R].
  rewrite R. cbn [bind]. clear R w.
  destruct (Slice.len (data node) <? add16 pos 2);
    [|destruct (Slice.len (data node) <? add16 pos 2 + 2)].
  1,2: destruct (Slice.from (data node) (add16 pos 2)); cbn [bind] in R2 |- *;
       [rewrite R2; reflexivity | injection R2 as ->; reflexivity].
  destruct (Slice.from (data node) (add16 pos 2)); cbn [bind] in R2 |- *;
    [|discriminate R2].
  rewrite R2. cbn [bind].
  apply from_upto_cases; [apply wrap16_range | apply le_combine_bound].
Qed.

(** X11. When exactly a key and a value can be read.  For [i < nkeys] with
    [pos = kvPos i]: [getKey i] returns if and only if the length field lies
    within the length of the slice, the key starts within it and ends within
    its capacity; [getVal i] if and only if both length fields lie within
    the length, the value starts within it and ends within the capacity.
    Otherwise they fault on a bound; no byte outside the array is read. *)
Theorem key_value_bounds node n i pos :
  nkeys node = Ok n -> i < n -> kvPos node i = Ok pos ->
  let klen := le_combine (bytes_at node pos 2) in
  let vlen := le_combine (bytes_at node (add16 pos 2) 2) in
  let kp := add16 pos 4 in
  let vp := add16 (add16 pos 4) klen in
  ((exists s, getKey node i = Ok s) <->
   pos + 2 <= blen node /\ kp <= blen node /\ kp + klen <= bcap node) /\
  ((exists s, getVal node i = Ok s) <->
   pos + 2 <= blen node /\ add16 pos 2 + 2 <= blen node /\
   vp <= blen node /\ vp + vlen <= bcap node) /\
  (forall f, getKey node i = Panic f -> f = SliceBounds \/ f = IndexOutOfRange) /\
  (forall f, getVal node i = Panic f -> f = SliceBounds \/ f = IndexOutOfRange).
Proof.
  intros Hn Hi Hk klen vlen kp vp.
  pose proof (kvPos_range node i pos Hk) as [Hpos _].
  pose proof (wrap16_range (pos + 2)) as [Hp2 _]. fold (add16 pos 2) in Hp2.
  rewrite (getKey_cases node n i pos Hn Hi Hk), (getVal_cases node n i pos Hn Hi Hk).
  cbv zeta. fold klen vlen. fold vp. fold kp.
  destruct (blen node <? pos) eqn:E1.
  { apply Z.ltb_lt in E1.
    split; [split; [intros [s Hs]; discriminate Hs | intros; lia]|].
    split; [split; [intros [s Hs]; discriminate Hs | intros; lia]|].
    split; intros f Hf; left; congruence. }
  destruct (blen node <? pos + 2) eqn:E2.
  { apply Z.ltb_lt in E2.
    split; [split; [intros [s Hs]; discriminate Hs | intros; lia]|].
    split; [split; [intros [s Hs]; discriminate Hs | intros; lia]|].
    split; intros f Hf; right; congruence. }
  apply Z.ltb_ge in E1, E2.
  split; [|split; [|split]].
  - destruct (blen node <? kp) eqn:E3; [|destruct (bcap node <? kp + klen) eqn:E4];
      cbn [orb]; try apply Z.ltb_lt in E3; try apply Z.ltb_ge in E3;
      try apply Z.ltb_lt in E4; try apply Z.ltb_ge in E4.
    + split; [intros [s Hs]; discriminate Hs | intros; lia].
    + split; [intros [s Hs]; discriminate Hs | intros; lia].
    + split; [intros _; lia | intros _; eexists; reflexivity].
  - destruct (blen node <? add16 pos 2) eqn:E5.
    { apply Z.ltb_lt in E5. split; [intros [s Hs]; discriminate Hs | intros; lia]. }
    destruct (blen node <? add16 pos 2 + 2) eqn:E6.
    { apply Z.ltb_lt in E6. split; [intros [s Hs]; discriminate Hs | intros; lia]. }
    apply Z.ltb_ge in E5, E6.
    destruct (blen node <? vp) eqn:E3; [|destruct (bcap node <? vp + vlen) eqn:E4];
      cbn [orb]; try apply Z.ltb_lt in E3; try apply Z.ltb_ge in E3;
      try apply Z.ltb_lt in E4; try apply Z.ltb_ge in E4.
    + split; [intros [s Hs]; discriminate Hs | intros; lia].
    + split; [intros [s Hs]; discriminate Hs | intros; lia].
    + split; [intros _; lia | intros _; eexists; reflexivity].
  - intros f. destruct ((blen node <? kp) || (bcap node <? kp + klen));
      [intros Hf; left; congruence | discriminate].
  - intros f.
    destruct (blen node <? add16 pos 2); [intros Hf; left; congruence|].
    destruct (blen node <? add16 pos 2 + 2); [intros Hf; right; congruence|].
    destruct ((blen node <? vp) || (bcap node <? vp + vlen));
      [intros Hf; left; congruence | discriminate].
Qed.

Lemma key_value_bounds_witness :
  nkeys sample = Ok 2 /\ 1 < 2 /\ kvPos sample 1 = Ok 31 /\
  (exists s, getKey sample 1 = Ok s) /\ (exists s, getVal sample 1 = Ok s).
Proof.
  split; [reflexivity|]. split; [reflexivity|]. split; [reflexivity|].
  destruct (key_value_bounds sample 2 1 31 eq_refl eq_refl eq_refl)
    as (HK & HV & _).
  split.
  - apply HK. repeat split; vm_compute; discriminate.
  - apply HV. repeat split; vm_compute; discriminate.
Defined.

(** X12. The slices returned by [getKey] and [getVal] keep the whole
    remaining capacity of the buffer: the capacity of the returned slice is
    that of the buffer less the position where it starts, and the bytes within
    that capacity are the bytes of the buffer's array from that position to
    its end.  When the record ends below 2^16, the spare capacity of the key
    slice begins with the value: it holds exactly the bytes of the array of
    the value slice. *)
Theorem returned_slices_capacity node n i pos :
  nkeys node = Ok n -> i < n -> kvPos node i = Ok pos ->
  let klen := le_combine (bytes_at node pos 2) in
  let kp := add16 pos 4 in
  let vp := add16 (add16 pos 4) klen in
  (forall s, getKey node i = Ok s ->
     Slice.backing s = skipn (Z.to_nat kp) (arr node) /\
     Slice.cap s = bcap node - kp) /\
  (forall s, getVal node i = Ok s ->
     Slice.backing s = skipn (Z.to_nat vp) (arr node) /\
     Slice.cap s = bcap node - vp) /\
  (pos + 4 + klen < 2 ^ 16 ->
   forall sk sv, getKey node i = Ok sk -> getVal node i = Ok sv ->
     Slice.spare sk = Slice.backing sv).
Proof.
  intros Hn Hi Hk klen kp vp.
  pose proof (kvPos_range node i pos Hk) as [Hpos _].
  assert (Hkl : 0 <= klen) by apply le_combine_bound.
  assert (Hback : forall q m, 0 <= q -> 0 <= m -> q + m <= bcap node ->
            Slice.backing (Slice.mk (bytes_at node q (Z.to_nat m))
                                    (skipn (Z.to_nat (q + m)) (arr node)))
            = skipn (Z.to_nat q) (arr node)).
  { intros q m Hq Hm Hc. unfold Slice.backing. cbn [Slice.vis Slice.spare].
    rewrite bytes_at_arr.
    replace (Z.to_nat (q + m)) with (Z.to_nat m + Z.to_nat q)%nat by lia.
    rewrite <- skipn_skipn. apply firstn_skipn. }
  assert (Hcap : forall s q, 0 <= q <= bcap node ->
            Slice.backing s = skipn (Z.to_nat q) (arr node) ->
            Slice.cap s = bcap node - q).
  { intros s q Hq Hs. rewrite bcap_arr in *.
    rewrite <- (length_backing s), Hs, length_skipn. lia. }
  assert (HK : forall s, getKey node i = Ok s ->
            kp + klen <= bcap node /\
            s = Slice.mk (bytes_at node kp (Z.to_nat klen))
                         (skipn (Z.to_nat (kp + klen)) (arr node))).
  { intros s. rewrite (getKey_cases node n i pos Hn Hi Hk). cbv zeta. fold klen kp.
    destruct (blen node <? pos); [discriminate|].
    destruct (blen node <? pos + 2); [discriminate|].
    destruct (blen node <? kp); [discriminate|].
    destruct (bcap node <? kp + klen) eqn:E; [discriminate|]. cbn [orb].
    apply Z.ltb_ge in E. intros H. split; [exact E | congruence]. }
  assert (HV : forall s, getVal node i = Ok s ->
            exists vlen, 0 <= vlen /\ vp + vlen <= bcap node /\
            s = Slice.mk (bytes_at node vp (Z.to_nat vlen))
                         (skipn (Z.to_nat (vp + vlen)) (arr node))).
  { intros s. rewrite (getVal_cases node n i pos Hn Hi Hk). cbv zeta. fold klen vp.
    destruct (blen node <? pos); [discriminate|].
    destruct (blen node <? pos + 2); [discriminate|].
    destruct (blen node <? add16 pos 2); [discriminate|].
    destruct (blen node <? add16 pos 2 + 2); [discriminate|].
    destruct (blen node <? vp); [discriminate|].
    destruct (bcap node <? vp + le_combine (bytes_at node (add16 pos 2) 2)) eqn:E;
      [discriminate|]. cbn [orb].
    apply Z.ltb_ge in E. intros H. eexists. split; [apply le_combine_bound|].
    split; [exact E | congruence]. }
  pose proof (wrap16_range (pos + 4)) as [Hkp _]. fold (add16 pos 4) in Hkp. fold kp in Hkp.
  pose proof (wrap16_range (add16 pos 4 + klen)) as [Hvp _].
  fold (add16 (add16 pos 4) klen) in Hvp. fold vp in Hvp.
  split; [|split].
  - intros s Hs. destruct (HK s Hs) as [Hc ->].
    pose proof (Hback kp klen Hkp Hkl Hc) as Hb.
    split; [exact Hb | apply Hcap; [lia | exact Hb]].
  - intros s Hs. destruct (HV s Hs) as (vlen & Hvl & Hc & ->).
    pose proof (Hback vp vlen Hvp Hvl Hc) as Hb.
    split; [exact Hb | apply Hcap; [lia | exact Hb]].
  - intros Hfit sk sv Hsk Hsv.
    destruct (HK sk Hsk) as [Hc ->]. destruct (HV sv Hsv) as (vlen & Hvl & Hcv & ->).
    rewrite (Hback vp vlen Hvp Hvl Hcv). cbn [Slice.spare].
    f_equal. f_equal. unfold vp, kp, add16.
    rewrite (wrap16_small (pos + 4)) by lia. symmetry. apply wrap16_small. lia.
Qed.

Lemma returned_slices_capacity_witness :
  nkeys sample = Ok 2 /\ 0 < 2 /\ kvPos sample 0 = Ok 24 /\
  forall sk sv, getKey sample 0 = Ok sk -> getVal sample 0 = Ok sv ->
    Slice.spare sk = Slice.backing sv.
Proof.
  split; [reflexivity|]. split; [reflexivity|]. split; [reflexivity|].
  destruct (returned_slices_capacity sample 2 0 24 eq_refl eq_refl eq_refl)
    as (_ & _ & H).
  apply H. vm_compute. reflexivity.
Defined.

(** ** What a pointer write leaves readable *)

Lemma skipn_from_agree (a a' : list byte) (q m : nat) :
  skipn q a' = skipn q a -> (q <= m)%nat -> skipn m a' = skipn m a.
Proof.
  intros H Hm. replace m with ((m - q) + q)%nat by lia.
  rewrite <- !skipn_skipn, H. reflexivity.
Qed.

Lemma bytes_at_with_arr node a (q : nat) p k :
  skipn q a = skipn q (arr node) -> Z.of_nat q <= p ->
  bytes_at (with_arr node a) p k = bytes_at node p k.
Proof.
  intros H Hp. rewrite !bytes_at_arr, arr_with_arr.
  rewrite (skipn_from_agree (arr node) a q (Z.to_nat p) H) by lia. reflexivity.
Qed.

Lemma btype_with_arr node a :
  firstn 4 a = firstn 4 (arr node) -> length a = length (arr node) ->
  btype (with_arr node a) = btype node.
Proof.
  intros H4 Hl. pose proof (blen_with_arr node a Hl) as Hb.
  destruct (Z_lt_le_dec (blen node) 2) as [Hlt|Hge].
  - rewrite !btype_Panic by lia. reflexivity.
  - rewrite !btype_Ok by lia. rewrite !bytes_at_arr, arr_with_arr.
    cbn [Z.to_nat skipn].
    assert (G : forall x : list byte, firstn 2 x = firstn 2 (firstn 4 x))
      by (intros x; rewrite firstn_firstn; reflexivity).
    rewrite (G a), (G (arr node)), H4. reflexivity.
Qed.

(** Every read past the pointer array depends only on the key count and on
    the bytes from the offset table on. *)
Lemma reads_agree node a n q :
  nkeys node = Ok n -> nkeys (with_arr node a) = Ok n ->
  length a = length (arr node) ->
  skipn (Z.to_nat q) a = skipn (Z.to_nat q) (arr node) ->
  0 <= q <= HEADER + 8 * n -> kvStart n <= 2 ^ 16 ->
  (forall j, getOffset (with_arr node a) j = getOffset node j) /\
  (forall j, kvPos (with_arr node a) j = kvPos node j) /\
  nbytes (with_arr node a) = nbytes node /\
  (forall j pos, kvPos node j = Ok pos -> HEADER + 8 * n <= pos ->
     (pos + 4 < 2 ^ 16 -> getKey (with_arr node a) j = getKey node j) /\
     (pos + 4 + le_combine (bytes_at node pos 2) < 2 ^ 16 ->
        getVal (with_arr node a) j = getVal node j)).
Proof.
  intros Hn Hn' Hl Hq0 Hqr Hfit. unfold kvStart, HEADER in *.
  pose proof (nkeys_inv node n Hn) as (_ & _ & Hnr). unfold is_uint16 in Hnr.
  pose proof (blen_with_arr node a Hl) as Hb.
  set (node' := with_arr node a) in *.
  assert (Hc : bcap node' = bcap node) by (apply bcap_with_arr, Hl).
  assert (Hbytes : forall p k, 4 + 8 * n <= p -> bytes_at node' p k = bytes_at node p k)
    by (intros p k Hp; apply (bytes_at_with_arr node a (Z.to_nat q)); [exact Hq0 | lia]).
  assert (Hskip : forall p, 4 + 8 * n <= p ->
            skipn (Z.to_nat p) (arr node') = skipn (Z.to_nat p) (arr node)).
  { intros p Hp. unfold node'. rewrite arr_with_arr.
    apply (skipn_from_agree _ _ (Z.to_nat q)); [exact Hq0 | lia]. }
  assert (HO : forall j, getOffset node' j = getOffset node j).
  { intros j. destruct (Z.eq_dec j 0) as [->|Hj0]; [reflexivity|].
    destruct (Z_le_gt_dec 1 j) as [H1|H1]; [destruct (Z_le_gt_dec j n) as [H2|H2]|].
    - rewrite (getOffset_pos node' n j Hn'), (getOffset_pos node n j Hn) by lia.
      assert (Ep : wrap16 (offPos n j) = 4 + 8 * n + 2 * (j - 1))
        by (apply wrap16_small; unfold offPos, HEADER; lia).
      rewrite !read16_cases by apply wrap16_range.
      fold (blen node') (blen node) (bytes_at node' (wrap16 (offPos n j)) 2)
        (bytes_at node (wrap16 (offPos n j)) 2).
      rewrite Hb, Hbytes by lia. reflexivity.
    - unfold getOffset.
      rewrite (offsetPos_Panic node' n j Hn'), (offsetPos_Panic node n j Hn) by lia.
      reflexivity.
    - unfold getOffset.
      rewrite (offsetPos_Panic node' n j Hn'), (offsetPos_Panic node n j Hn) by lia.
      reflexivity. }
  assert (HK : forall j, kvPos node' j = kvPos node j)
    by (intros j; unfold kvPos; rewrite Hn', Hn, HO; reflexivity).
  split; [exact HO|]. split; [exact HK|].
  split; [unfold nbytes; rewrite Hn', Hn; cbn [bind]; apply HK|].
  intros j pos Hk Hpos.
  pose proof (kvPos_range node j pos Hk) as Hpr. unfold is_uint16 in Hpr.
  assert (Hk' : kvPos node' j = Ok pos) by (rewrite HK; exact Hk).
  destruct (Z_lt_le_dec j n) as [Hjn|Hjn].
  2:{ split; intros _.
      - rewrite (getKey_assert node' n j Hn' Hjn), (getKey_assert node n j Hn Hjn).
        reflexivity.
      - rewrite (getVal_assert node' n j Hn' Hjn), (getVal_assert node n j Hn Hjn).
        reflexivity. }
  pose proof (le_combine_bound (bytes_at node pos 2)) as [Hkl _].
  split.
  - intros H4.
    assert (E4 : add16 pos 4 = pos + 4) by (apply wrap16_small; lia).
    rewrite (getKey_cases node' n j pos Hn' Hjn Hk'), (getKey_cases node n j pos Hn Hjn Hk).
    cbv zeta. rewrite Hb, Hc, E4, (Hbytes pos 2%nat), (Hbytes (pos + 4)), Hskip by lia.
    reflexivity.
  - intros H4.
    assert (E2 : add16 pos 2 = pos + 2) by (apply wrap16_small; lia).
    assert (E4 : add16 pos 4 = pos + 4) by (apply wrap16_small; lia).
    assert (Ev : add16 (pos + 4) (le_combine (bytes_at node pos 2))
                 = pos + 4 + le_combine (bytes_at node pos 2))
      by (apply wrap16_small; lia).
    pose proof (le_combine_bound (bytes_at node (pos + 2) 2)) as [Hvl _].
    rewrite (getVal_cases node' n j pos Hn' Hjn Hk'), (getVal_cases node n j pos Hn Hjn Hk).
    cbv zeta.
    rewrite Hb, Hc, E2, E4, (Hbytes pos 2%nat), (Hbytes (pos + 2) 2%nat), Ev by lia.
    rewrite Hbytes, Hskip by lia. reflexivity.
Qed.

(** X13. A pointer write changes no other field.  After [setPtr i v] with
    [i < nkeys], returned or faulted, the type and the key count read as
    before; in a node whose header, pointers and offsets end within 2^16
    bytes so do every offset, every record position and the size, and every
    key and value whose record lies past the pointer array and below
    2^16. *)
Theorem setPtr_keeps_reads node n i v :
  nkeys node = Ok n -> 0 <= i < n ->
  btype (fst (setPtr node i v)) = btype node /\
  nkeys (fst (setPtr node i v)) = nkeys node /\
  (kvStart n <= 2 ^ 16 ->
     (forall j, getOffset (fst (setPtr node i v)) j = getOffset node j) /\
     (forall j, kvPos (fst (setPtr node i v)) j = kvPos node j) /\
     nbytes (fst (setPtr node i v)) = nbytes node /\
     (forall j pos, kvPos node j = Ok pos -> HEADER + 8 * n <= pos ->
        (pos + 4 < 2 ^ 16 ->
           getKey (fst (setPtr node i v)) j = getKey node j) /\
        (pos + 4 + le_combine (bytes_at node pos 2) < 2 ^ 16 ->
           getVal (fst (setPtr node i v)) j = getVal node j))).
Proof.
  intros Hn Hi.
  destruct (setPtr_shape node n i v Hn Hi) as (a & -> & Hl & Hf & Hs & Hn' & Hb).
  pose proof (ptr_pos_above_header i) as Hh. unfold HEADER in Hh.
  pose proof (ptr_pos_bounds n i Hi) as Hpb.
  pose proof (nkeys_inv node n Hn) as (_ & _ & Hnr). unfold is_uint16 in Hnr.
  split; [|split; [rewrite Hn', Hn; reflexivity|]].
  { apply btype_with_arr; [|exact Hl].
    assert (G : forall x : list byte,
              firstn 4 x = firstn 4 (firstn (Z.to_nat (wrap16 (ptrPos i))) x))
      by (intros x; rewrite firstn_firstn; f_equal; lia).
    rewrite (G a), (G (arr node)), Hf. reflexivity. }
  intros Hfit.
  apply (reads_agree node a n (HEADER + 8 * n) Hn Hn' Hl); [|unfold HEADER; lia | exact Hfit].
  apply (skipn_from_agree _ _ _ _ Hs). lia.
Qed.

Lemma setPtr_keeps_reads_witness :
  nkeys sample = Ok 2 /\ 0 <= 0 < 2 /\ kvStart 2 <= 2 ^ 16 /\
  kvPos sample 1 = Ok 31 /\
  getKey (fst (setPtr sample 0 77)) 1 = getKey sample 1 /\
  getVal (fst (setPtr sample 0 77)) 1 = getVal sample 1 /\
  nbytes (fst (setPtr sample 0 77)) = nbytes sample.
Proof.
  split; [reflexivity|]. split; [lia|]. split; [discriminate|].
  split; [reflexivity|].
  destruct (setPtr_keeps_reads sample 2 0 77 eq_refl ltac:(lia)) as (_ & _ & H).
  destruct (H ltac:(discriminate)) as (_ & _ & Hnb & Hkv).
  destruct (Hkv 1 31 eq_refl ltac:(discriminate)) as [HK HV].
  split; [apply HK; reflexivity|]. split; [apply HV; reflexivity | exact Hnb].
Defined.

(** X14. Changing the type of a node changes nothing else: after
    [setHeader t n] with [n] the key count already there, the key count and
    every child pointer read as before, and in a node whose header, pointers
    and offsets end within 2^16 bytes so do the offsets, the record
    positions, the size, and the keys and values whose record lies past the
    pointer array and below 2^16. *)
Theorem setHeader_same_count node n t :
  nkeys node = Ok n ->
  snd (setHeader node t n) = Ok tt /\
  nkeys (fst (setHeader node t n)) = Ok n /\
  (forall j, getPtr (fst (setHeader node t n)) j = getPtr node j) /\
  (kvStart n <= 2 ^ 16 ->
     (forall j, getOffset (fst (setHeader node t n)) j = getOffset node j) /\
     (forall j, kvPos (fst (setHeader node t n)) j = kvPos node j) /\
     nbytes (fst (setHeader node t n)) = nbytes node /\
     (forall j pos, kvPos node j = Ok pos -> HEADER + 8 * n <= pos ->
        (pos + 4 < 2 ^ 16 ->
           getKey (fst (setHeader node t n)) j = getKey node j) /\
        (pos + 4 + le_combine (bytes_at node pos 2) < 2 ^ 16 ->
           getVal (fst (setHeader node t n)) j = getVal node j))).
Proof.
  intros Hn. pose proof (nkeys_inv node n Hn) as (Hc & _ & Hnr).
  rewrite setHeader_Ok by exact Hc. cbn [fst snd].
  set (a := le_split 2 t ++ le_split 2 n ++ skipn 4 (arr node)).
  assert (Hl : length a = length (arr node)).
  { unfold a. rewrite !length_app, !length_le_split, length_skipn.
    rewrite bcap_arr in Hc. lia. }
  assert (H4 : skipn 4 a = skipn 4 (arr node)).
  { unfold a. rewrite app_assoc. apply skipn_app_exact.
    rewrite length_app, !length_le_split. reflexivity. }
  assert (Hn' : nkeys (with_arr node a) = Ok n).
  { rewrite nkeys_Ok by (rewrite bcap_with_arr by exact Hl; exact Hc). f_equal.
    rewrite (bytes_at_in (with_arr node a) (le_split 2 t) (le_split 2 n)
               (skipn 4 (arr node))).
    - apply le16_roundtrip, Hnr.
    - apply arr_with_arr.
    - rewrite length_le_split. reflexivity.
    - rewrite length_le_split. reflexivity. }
  unfold is_uint16 in Hnr.
  split; [reflexivity|]. split; [exact Hn'|]. split.
  - intros j. destruct (Z_lt_le_dec j n) as [Hj|Hj].
    + rewrite (getPtr_cases _ n j Hn' Hj), (getPtr_cases node n j Hn Hj).
      rewrite (blen_with_arr node a Hl).
      rewrite (bytes_at_with_arr node a 4 _ _ H4); [reflexivity|].
      pose proof (ptr_pos_above_header j) as Hh. unfold HEADER in Hh. lia.
    + rewrite (getPtr_assert _ n j Hn' Hj), (getPtr_assert node n j Hn Hj). reflexivity.
  - intros Hfit.
    apply (reads_agree node a n 4 Hn Hn' Hl H4); [unfold HEADER; lia | exact Hfit].
Qed.

Lemma setHeader_same_count_witness :
  nkeys sample = Ok 2 /\
  btype (fst (setHeader sample BNODE_NODE 2)) = Ok BNODE_NODE /\
  getPtr (fst (setHeader sample BNODE_NODE 2)) 1 = getPtr sample 1.
Proof.
  split; [reflexivity|]. split; [reflexivity|].
  destruct (setHeader_same_count sample 2 BNODE_NODE eq_refl) as (_ & _ & H & _).
  apply H.
Defined.

(** ** Ranges of the results *)

Lemma le_combine_within (l : list byte) (k : nat) :
  (length l <= k)%nat -> 0 <= le_combine l < 2 ^ (8 * Z.of_nat k).
Proof.
  intros H. pose proof (le_combine_bound l) as [H0 H1]. split; [exact H0|].
  eapply Z.lt_le_trans; [exact H1|]. apply Z.pow_le_mono_r; lia.
Qed.

Lemma length_bytes_at_le node p k : (length (bytes_at node p k) <= k)%nat.
Proof. rewrite bytes_at_arr. apply firstn_le_length. Qed.

(** X15. Results stay within their Go types: the type, the key count, an
    offset, a record position and the size are below 2^16, a child pointer is
    below 2^64, and a key or a value returned is shorter than 2^16 bytes. *)
Theorem results_in_range node i :
  (forall t, btype node = Ok t -> is_uint16 t) /\
  (forall n, nkeys node = Ok n -> is_uint16 n) /\
  (forall o, getOffset node i = Ok o -> is_uint16 o) /\
  (forall p, kvPos node i = Ok p -> is_uint16 p) /\
  (forall s, nbytes node = Ok s -> is_uint16 s) /\
  (forall v, getPtr node i = Ok v -> is_uint64 v) /\
  (forall s, getKey node i = Ok s -> Slice.len s < 2 ^ 16) /\
  (forall s, getVal node i = Ok s -> Slice.len s < 2 ^ 16).
Proof.
  split; [|split; [|split; [|split; [|split; [|split; [|split]]]]]].
  - intros t. unfold btype, Binary.Uint16.
    destruct (Slice.len (data node) <? 2); [discriminate|].
    intros H. assert (E : t = le_combine (firstn 2 (Slice.vis (data node)))) by congruence.
    rewrite E. apply (le_combine_within _ 2). rewrite length_firstn. lia.
  - intros n H. apply (nkeys_inv node n H).
  - apply getOffset_uint16.
  - apply kvPos_range.
  - intros s. unfold nbytes. destruct (nkeys node) as [n|]; [|discriminate].
    cbn [bind]. apply kvPos_range.
  - intros v. destruct (nkeys node) as [n|f] eqn:Hn.
    + destruct (Z_lt_le_dec i n) as [Hi|Hi].
      * rewrite (getPtr_cases node n i Hn Hi).
        destruct (blen node <? wrap16 (ptrPos i)); [discriminate|].
        destruct (blen node <? wrap16 (ptrPos i) + 8); [discriminate|].
        intros H.
        assert (E : v = le_combine (bytes_at node (wrap16 (ptrPos i)) 8)) by congruence.
        rewrite E. apply (le_combine_within _ 8).
        rewrite bytes_at_arr, length_firstn. lia.
      * rewrite (getPtr_assert node n i Hn Hi). discriminate.
    + unfold getPtr. rewrite Hn. discriminate.
  - intros s. destruct (nkeys node) as [n|f] eqn:Hn.
    + destruct (Z_lt_le_dec i n) as [Hi|Hi].
      * destruct (kvPos node i) as [pos|f] eqn:Hk.
        -- rewrite (getKey_cases node n i pos Hn Hi Hk). cbv zeta.
           destruct (blen node <? pos); [discriminate|].
           destruct (blen node <? pos + 2); [discriminate|].
           destruct ((blen node <? add16 pos 4)
                     || (bcap node <? add16 pos 4 + le_combine (bytes_at node pos 2)));
             [discriminate|].
           intros H. injection H as <-. unfold Slice.len. cbn [Slice.vis].
           pose proof (le_combine_within (bytes_at node pos 2) 2
                         (length_bytes_at_le _ _ _)) as Hb.
           change (2 ^ (8 * Z.of_nat 2)) with (2 ^ 16) in Hb.
           pose proof (length_bytes_at_le node (add16 pos 4)
                         (Z.to_nat (le_combine (bytes_at node pos 2)))).
           lia.
        -- unfold getKey. rewrite Hn. cbn [bind]. asserted. rewrite Hk. discriminate.
      * rewrite (getKey_assert node n i Hn Hi). discriminate.
    + unfold getKey. rewrite Hn. discriminate.
  - intros s. destruct (nkeys node) as [n|f] eqn:Hn.
    + destruct (Z_lt_le_dec i n) as [Hi|Hi].
      * destruct (kvPos node i) as [pos|f] eqn:Hk.
        -- rewrite (getVal_cases node n i pos Hn Hi Hk). cbv zeta.
           destruct (blen node <? pos); [discriminate|].
           destruct (blen node <? pos + 2); [discriminate|].
           destruct (blen node <? add16 pos 2); [discriminate|].
           destruct (blen node <? add16 pos 2 + 2); [discriminate|].
           match goal with
           | |- context [if ?c then _ else _] => destruct c; [discriminate|]
           end.
           intros H. injection H as <-. unfold Slice.len. cbn [Slice.vis].
           pose proof (le_combine_within (bytes_at node (add16 pos 2) 2) 2
                         (length_bytes_at_le _ _ _)) as Hb.
           change (2 ^ (8 * Z.of_nat 2)) with (2 ^ 16) in Hb.
           pose proof (length_bytes_at_le node
                         (add16 (add16 pos 4) (le_combine (bytes_at node pos 2)))
                         (Z.to_nat (le_combine (bytes_at node (add16 pos 2) 2)))).
           lia.
        -- unfold getVal. rewrite Hn. cbn [bind]. asserted. rewrite Hk. discriminate.
      * rewrite (getVal_assert node n i Hn Hi). discriminate.
    + unfold getVal. rewrite Hn. discriminate.
Qed.

Lemma results_in_range_witness :
  getKey sample 1 = Ok (Slice.mk (map bz [98; 99]) (map bz [122; 0; 0])) /\
  Slice.len (Slice.mk (map bz [98; 99]) (map bz [122; 0; 0])) < 2 ^ 16 /\
  is_uint64 34.
Proof.
  split; [reflexivity|].
  destruct (results_in_range sample 1) as (_ & _ & _ & _ & _ & Hp & Hk & _).
  split; [apply Hk; reflexivity | apply Hp; reflexivity].
Defined.

(** ** Offsets and sizes of a node laid out by the page format *)

Lemma kv_size_ge es : 4 * Z.of_nat (length es) <= kv_size es.
Proof.
  induction es as [|e es IH]; [cbn; lia|].
  rewrite kv_size_cons. cbn [length]. unfold record_size, blength. lia.
Qed.

Lemma kv_size_firstn_mono es (i j : nat) :
  (i <= j)%nat -> kv_size (firstn i es) <= kv_size (firstn j es).
Proof.
  intros H. replace (firstn i es) with (firstn i (firstn j es)).
  - apply kv_size_firstn_le.
  - rewrite firstn_firstn. f_equal. lia.
Qed.

(** X16. The offsets of a built node are the running sizes of its records:
    [getOffset i] is the size of the first [i] records, so the offsets never
    decrease, [kvPos i] is where record [i] starts, and the next position
    lies one record further: [4 + klen + vlen] bytes, which is how the length
    of a record is found without a scan.  [kvPos nkeys] is the end of the
    last record. *)
Theorem built_offsets c buf :
  length (c_ptrs c) = length (c_entries c) -> laid_out c buf ->
  encoded_size c <= blen buf -> encoded_size c < 2 ^ 16 ->
  exists node,
    build c buf = (node, Ok tt) /\
    (forall i, (i <= length (c_entries c))%nat ->
       getOffset node (Z.of_nat i) = Ok (kv_size (firstn i (c_entries c))) /\
       kvPos node (Z.of_nat i)
       = Ok (kvStart (c_nkeys c) + kv_size (firstn i (c_entries c)))) /\
    (forall i j oi oj, (i <= j <= length (c_entries c))%nat ->
       getOffset node (Z.of_nat i) = Ok oi -> getOffset node (Z.of_nat j) = Ok oj ->
       oi <= oj) /\
    (forall i e, nth_error (c_entries c) i = Some e ->
       exists pos,
         kvPos node (Z.of_nat i) = Ok pos /\
         kvPos node (Z.of_nat i + 1)
         = Ok (pos + 4 + blength (key e) + blength (val e))) /\
    kvPos node (c_nkeys c) = Ok (encoded_size c).
Proof.
  intros Hptrs Hlay Hlen Hfit.
  destruct (build_image c buf Hptrs Hlay Hlen Hfit) as (node & Hb & Hbl & Ha).
  rewrite <- Hbl in Hlen.
  pose proof (decode_getOffset c node _ Ha Hptrs Hlen Hfit) as HO.
  pose proof (decode_kvPos c node _ Ha Hptrs Hlen Hfit) as HK.
  exists node. split; [exact Hb|]. split; [|split; [|split]].
  - intros i Hi. split; [apply HO | apply HK]; exact Hi.
  - intros i j oi oj Hij Hi Hj.
    rewrite HO in Hi, Hj by lia.
    assert (Ei : oi = kv_size (firstn i (c_entries c))) by congruence.
    assert (Ej : oj = kv_size (firstn j (c_entries c))) by congruence.
    rewrite Ei, Ej. apply kv_size_firstn_mono. lia.
  - intros i e Hi.
    assert (Hlt : (i < length (c_entries c))%nat) by (apply nth_error_Some; congruence).
    exists (kvStart (c_nkeys c) + kv_size (firstn i (c_entries c))).
    split; [apply HK; lia|].
    replace (Z.of_nat i + 1) with (Z.of_nat (S i)) by lia.
    rewrite HK by lia. rewrite (kv_size_firstn_S _ i e Hi).
    unfold record_size. f_equal. lia.
  - unfold c_nkeys. rewrite HK by lia. rewrite firstn_all. reflexivity.
Qed.

Lemma built_offsets_witness :
  length (c_ptrs sample_content) = length (c_entries sample_content) /\
  laid_out sample_content sample_blank /\
  encoded_size sample_content <= blen sample_blank /\
  encoded_size sample_content < 2 ^ 16 /\
  exists node,
    build sample_content sample_blank = (node, Ok tt) /\
    getOffset node 2 = Ok 14 /\ kvPos node 2 = Ok 38.
Proof.
  assert (H3 : encoded_size sample_content <= blen sample_blank)
    by (vm_compute; discriminate).
  split; [reflexivity|]. split; [reflexivity|]. split; [exact H3|].
  split; [reflexivity|].
  destruct (built_offsets sample_content sample_blank eq_refl eq_refl H3 eq_refl)
    as (node & Hb & H & _).
  exists node. split; [exact Hb|].
  destruct (H 2%nat ltac:(cbn; lia)) as [Ho Hk]. split; [exact Ho | exact Hk].
Defined.

(** X17. A key costs at least 14 bytes of the page: 8 for the pointer, 2 for
    the offset, 4 for the two length fields.  For a built node whose encoded
    size is below 2^16, so that the uint16 sum of [nbytes] does not wrap,
    [nbytes] returns at least [HEADER + 14 * nkeys]; hence when [nbytes]
    returns at most [BTREE_PAGE_SIZE] the node has at most 292 keys. *)
Theorem page_holds_292_keys c buf node s :
  length (c_ptrs c) = length (c_entries c) -> laid_out c buf ->
  encoded_size c <= blen buf -> encoded_size c < 2 ^ 16 ->
  build c buf = (node, Ok tt) -> nbytes node = Ok s ->
  exists n,
    nkeys node = Ok n /\ HEADER + 14 * n <= s /\
    (s <= BTREE_PAGE_SIZE -> n <= 292).
Proof.
  intros Hptrs Hlay Hlen Hfit Hbuild Hs.
  destruct (build_image c buf Hptrs Hlay Hlen Hfit) as (node' & Hb & Hbl & Ha).
  assert (E : node' = node) by congruence. subst node'.
  rewrite <- Hbl in Hlen.
  pose proof (kv_size_ge (c_entries c)) as Hge. fold (c_nkeys c) in Hge.
  pose proof (decode_nbytes c node _ Ha Hptrs Hlen Hfit) as Hnb.
  assert (Es : s = encoded_size c) by congruence.
  exists (c_nkeys c). split; [apply (decode_nkeys c node _ Ha Hptrs Hlen Hfit)|].
  rewrite Es. unfold encoded_size, kvStart, HEADER, BTREE_PAGE_SIZE in *.
  split; [lia | intros; lia].
Qed.

Lemma page_holds_292_keys_witness :
  length (c_ptrs sample_content) = length (c_entries sample_content) /\
  laid_out sample_content sample_blank /\
  encoded_size sample_content <= blen sample_blank /\
  encoded_size sample_content < 2 ^ 16 /\
  build sample_content sample_blank = (sample, Ok tt) /\
  nbytes sample = Ok 38 /\
  exists n, nkeys sample = Ok n /\ HEADER + 14 * n <= 38 /\ n <= 292.
Proof.
  assert (H3 : encoded_size sample_content <= blen sample_blank)
    by (vm_compute; discriminate).
  split; [reflexivity|]. split; [reflexivity|]. split; [exact H3|].
  split; [reflexivity|]. split; [reflexivity|]. split; [reflexivity|].
  destruct (page_holds_292_keys sample_content sample_blank sample 38
              eq_refl eq_refl H3 eq_refl eq_refl eq_refl) as (n & Hn & Hs & Hp).
  exists n. split; [exact Hn|]. split; [exact Hs|].
  apply Hp. vm_compute. discriminate.
Defined.
